(** * rainfall/web.py: request dispatch and connection lifecycle

    A shallow embedding of [rainfall.web]: the handler invocation adapter
    [HTTPHandler.__call__], the protocol class [HTTPServer] with its
    callbacks, and [Application.__init__].  Callbacks are state
    transformers over the connection; the asyncio event loop is the
    environment and appears as a list of events. *)

From Stdlib Require Import ZArith List String Ascii Bool Lia Arith.
From Stdlib Require Import DecimalString.
Import ListNotations.
Local Open Scope string_scope.
Local Open Scope Z_scope.

Set Implicit Arguments.

(** ** Python values and exceptions *)

(** The values a [handle] method can hand back.  [PyHTTPError] is an
    instance of [HTTPError] of [rainfall/http.py], of which [web.py] reads
    the [code] only; [PyObject cls truth] is an instance of any other
    class, with the result of [bool()] on it. *)
#[warnings="-register-all"]
Inductive pyvalue : Type :=
| PyNone
| PyStr (s : string)
| PyHTTPError (code : Z)
| PyInt (n : Z)
| PyBool (b : bool)
| PyList (xs : list pyvalue)
| PyObject (cls : string) (truth : bool).

(** Python truth value testing, as used by [if handler_result:].  An
    [HTTPError] instance is an object without [__bool__] or [__len__],
    hence true. *)
Definition truthy (v : pyvalue) : bool :=
  match v with
  | PyNone => false
  | PyStr s => negb (String.eqb s "")
  | PyHTTPError _ => true
  | PyInt n => negb (n =? 0)
  | PyBool b => b
  | PyList xs => match xs with [] => false | _ :: _ => true end
  | PyObject _ truth => truth
  end.

(** [type(v)] as it is printed in the adapter's error message. *)
Definition type_name (v : pyvalue) : string :=
  match v with
  | PyNone => "<class 'NoneType'>"
  | PyStr _ => "<class 'str'>"
  | PyHTTPError _ => "<class 'rainfall.http.HTTPError'>"
  | PyInt _ => "<class 'int'>"
  | PyBool _ => "<class 'bool'>"
  | PyList _ => "<class 'list'>"
  | PyObject cls _ => "<class '" ++ cls ++ "'>"
  end.

(** A raised exception: its class, whether that class derives from
    [Exception] (as opposed to [BaseException] only), and its message. *)
Record pyexc : Type := mk_exc {
  exc_class : string;
  is_Exception : bool;
  exc_msg : string
}.

(** Modelled from the spec: [RainfallException] of [rainfall/utils.py];
    a contract violation "is treated as a fault, not a crash, and surfaces
    as a 500", so the class derives from [Exception]. *)
Definition RainfallException (msg : string) : pyexc :=
  mk_exc "RainfallException" true msg.

Definition KeyError (key : string) : pyexc :=
  mk_exc "KeyError" true key.

(** The result of running a piece of Python code that may raise. *)
Inductive outcome (A : Type) : Type :=
| Returns (a : A)
| Raises (e : pyexc).
Arguments Returns {A} a.
Arguments Raises {A} e.

(** ** Requests, responses, keyword arguments *)

(** Modelled from the spec: [HTTPRequest] of [rainfall/http.py], the fields
    the dispatch code reads ("method (string), path (string)"). *)
Record HTTPRequest : Type := mk_request {
  method : string;
  path : string
}.

(** Modelled from the spec: [HTTPResponse] of [rainfall/http.py]
    ("code: integer (initialized 200), body: string (initialized empty)"). *)
Record HTTPResponse : Type := mk_response {
  code : Z;
  body : string
}.

Definition HTTPResponse_init : HTTPResponse := mk_response 200 "".

(** [result.groupdict()]: every named group of the pattern with the text it
    matched, or [None] for a group that took no part in the match. *)
Definition kwargs : Type := list (string * option string).

(** ** HTTPHandler *)

(** A handler object: its [handle] method and the [_is_coroutine] mark that
    [asyncio.coroutine] leaves on it. *)
Record HTTPHandler : Type := mk_handler {
  is_coroutine : bool;
  handle : HTTPRequest -> kwargs -> outcome pyvalue
}.

(** [HTTPHandler.__call__(self, request, **kwargs)]. *)
Definition HTTPHandler_call (self : HTTPHandler) (request : HTTPRequest)
    (kw : kwargs) : outcome (Z * string) :=
  let code := 200 in
  let body := "" in
  let called :=
    if is_coroutine self
    then handle self request kw
    else handle self request [] in
  match called with
  | Raises e => Raises e
  | Returns handler_result =>
      if truthy handler_result then
        match handler_result with
        | PyHTTPError c => Returns (c, body)
        | PyStr s => Returns (code, s)
        | _ => Raises (RainfallException
                 ("handle() result must be HTTPError or unicode, found "
                  ++ type_name handler_result))
        end
      else Returns (code, body)
  end.

(** The first keyword that [__call__(self, request, **kwargs)] cannot
    take: its two positional parameters are bound already. *)
Fixpoint first_clash (kw : kwargs) : option string :=
  match kw with
  | [] => None
  | (name, _) :: rest =>
      if String.eqb name "self" || String.eqb name "request"
      then Some name
      else first_clash rest
  end.

Definition TypeError_multiple_values (name : string) : pyexc :=
  mk_exc "TypeError" true
         ("__call__() got multiple values for argument '" ++ name ++ "'").

(** The call [handler(request, **groupdict)]: binding the arguments
    fails with a [TypeError] when a capture is named [self] or [request];
    otherwise the body of [__call__] runs. *)
Definition invoke (handler : HTTPHandler) (request : HTTPRequest)
    (groupdict : kwargs) : outcome (Z * string) :=
  match first_clash groupdict with
  | Some name => Raises (TypeError_multiple_values name)
  | None => HTTPHandler_call handler request groupdict
  end.

(** ** The standard library's [http.client] *)

Module client.

Definition NOT_FOUND : Z := 404.
Definition INTERNAL_SERVER_ERROR : Z := 500.

(** [http.client.responses] as the association list of its items
    (status code, reason phrase). *)
Definition responses_items : list (Z * string) :=
  [ (100, "Continue"); (101, "Switching Protocols");
    (200, "OK"); (201, "Created"); (202, "Accepted");
    (203, "Non-Authoritative Information"); (204, "No Content");
    (205, "Reset Content"); (206, "Partial Content");
    (300, "Multiple Choices"); (301, "Moved Permanently");
    (302, "Found"); (303, "See Other"); (304, "Not Modified");
    (305, "Use Proxy"); (306, "(Unused)"); (307, "Temporary Redirect");
    (400, "Bad Request"); (401, "Unauthorized");
    (402, "Payment Required"); (403, "Forbidden"); (404, "Not Found");
    (405, "Method Not Allowed"); (406, "Not Acceptable");
    (407, "Proxy Authentication Required"); (408, "Request Timeout");
    (409, "Conflict"); (410, "Gone"); (411, "Length Required");
    (412, "Precondition Failed"); (413, "Request Entity Too Large");
    (414, "Request-URI Too Long"); (415, "Unsupported Media Type");
    (416, "Requested Range Not Satisfiable"); (417, "Expectation Failed");
    (428, "Precondition Required"); (429, "Too Many Requests");
    (431, "Request Header Fields Too Large");
    (500, "Internal Server Error"); (501, "Not Implemented");
    (502, "Bad Gateway"); (503, "Service Unavailable");
    (504, "Gateway Timeout"); (505, "HTTP Version Not Supported");
    (511, "Network Authentication Required") ].

(** [responses[code]]; [None] stands for the [KeyError]. *)
Fixpoint lookup (items : list (Z * string)) (c : Z) : option string :=
  match items with
  | [] => None
  | (k, v) :: rest => if k =? c then Some v else lookup rest c
  end.

Definition responses (c : Z) : option string := lookup responses_items c.

End client.

(** ** String helpers *)

(** ["{}".format(n)] for an integer. *)
Definition format_int (n : Z) : string := NilZero.string_of_int (Z.to_int n).

(** [s.split('?')[0]]: the text before the first question mark. *)
Fixpoint strip_query (s : string) : string :=
  match s with
  | EmptyString => EmptyString
  | String c rest =>
      if Ascii.eqb c "?"%char then EmptyString else String c (strip_query rest)
  end.

(** ["<h1>{} {}</h1>".format(code, phrase)]. *)
Definition fallback_body (c : Z) (phrase : string) : string :=
  "<h1>" ++ format_int c ++ " " ++ phrase ++ "</h1>".

(** ** The transport and the timer handle, as asyncio provides them *)

(** A socket transport.  [close()] may be called any number of times;
    [close_calls] counts the calls the protocol makes.  [write()] on a
    closed transport drops its data: this is what asyncio does when no
    output was waiting to be sent at the time of the close (always so
    when nothing had been written); output still waiting at the close is
    not followed here. *)
Record Transport : Type := mk_transport {
  closing : bool;
  close_calls : nat;
  written : list string
}.

Definition new_transport : Transport := mk_transport false 0 [].

Definition transport_close (t : Transport) : Transport :=
  mk_transport true (S (close_calls t)) (written t).

Definition transport_write (t : Transport) (data : string) : Transport :=
  if closing t then t
  else mk_transport (closing t) (close_calls t) (written t ++ [data]).

(** The handle [call_later] returns: the time it is due, the flag set by
    [cancel()], and whether the loop has run its callback. *)
Record TimerHandle : Type := mk_timer {
  when : Z;
  cancelled : bool;
  ran : bool
}.

Definition call_later (now delay : Z) : TimerHandle :=
  mk_timer (now + delay) false false.

Definition cancel (h : TimerHandle) : TimerHandle :=
  mk_timer (when h) true (ran h).

(** The callback is still scheduled: the loop may yet run it. *)
Definition dangling (h : TimerHandle) : bool :=
  negb (cancelled h) && negb (ran h).

(** What the process prints: the access line of [_call_handler] (its
    timestamp left out) and the traceback of a caught exception. *)
Inductive log_entry : Type :=
| AccessLine (meth pth : string) (status : Z)
| Traceback (e : pyexc).

(** A dispatch task created by [data_received]. *)
Inductive task : Type :=
| Pending (request : HTTPRequest)
| Finished (exception : option pyexc)
| Finalized.

Fixpoint update_nth {A : Type} (i : nat) (x : A) (l : list A) : list A :=
  match l, i with
  | [], _ => []
  | _ :: rest, O => x :: rest
  | y :: rest, S j => y :: update_nth j x rest
  end.

(** [jinja2.Environment(loader=FileSystemLoader(path))]; the class
    attribute starts out as the empty string. *)
Inductive jinja_env : Type :=
| NoEnvironment
| Environment (template_path : string).

(** [settings.get(key, default)] on a dict of strings given by its items. *)
Fixpoint settings_get (settings : list (string * string)) (key default : string)
    : string :=
  match settings with
  | [] => default
  | (k, v) :: rest =>
      if String.eqb k key then v else settings_get rest key default
  end.

(** ** HTTPServer and Application *)

Section Server.

(** Route patterns and [re.match] on them (a match object becomes its
    [groupdict()], no match becomes [None]). *)
Variable pattern : Type.
Variable re_match : pattern -> string -> option kwargs.

(** [HTTPResponse.compose().encode()] of [rainfall/http.py]. *)
Variable compose : HTTPResponse -> string.

(** [HTTPRequest(data.decode())]; [None] when decoding or parsing
    raises. *)
Variable parse : string -> option HTTPRequest.

(** The route table: [self._handlers.items()] in iteration order. *)
Definition handlers : Type := list (pattern * HTTPHandler).

(** The class attributes of [HTTPServer], shared by all its instances. *)
Record HTTPServer_class : Type := mk_class {
  TIMEOUT : Z;
  _handlers : handlers;
  _static_path : string;
  _jinja_env : jinja_env
}.

Definition HTTPServer_class_init : HTTPServer_class :=
  mk_class 5 [] "" NoEnvironment.

(** One connection: the protocol instance's attributes together with what
    the loop and the process hold for it.  [composed] and [invoked] record
    the responses built by dispatch tasks and the handler calls made. *)
Record HTTPServer : Type := mk_server {
  transport : Transport;
  h_timeout : TimerHandle;
  tasks : list task;
  log : list log_entry;
  composed : list HTTPResponse;
  invoked : list (HTTPHandler * kwargs);
  lost : bool
}.

(** [HTTPServer.timeout]. *)
Definition timeout (self : HTTPServer) : HTTPServer :=
  mk_server (transport_close (transport self)) (h_timeout self)
            (tasks self) (log self) (composed self) (invoked self)
            (lost self).

(** [HTTPServer.connection_made], called by the loop at time [now]. *)
Definition connection_made (cls : HTTPServer_class) (now : Z)
    (transport : Transport) : HTTPServer :=
  mk_server transport (call_later now (TIMEOUT cls)) [] [] [] [] false.

(** [HTTPServer.data_received]. *)
Definition data_received (self : HTTPServer) (data : string) : HTTPServer :=
  match parse data with
  | None => self
  | Some request =>
      mk_server (transport self) (h_timeout self)
                (tasks self ++ [Pending request]) (log self)
                (composed self) (invoked self) (lost self)
  end.

(** [HTTPServer._finalize_request]. *)
Definition _finalize_request (self : HTTPServer) : HTTPServer :=
  mk_server (transport_close (transport self)) (cancel (h_timeout self))
            (tasks self) (log self) (composed self) (invoked self)
            (lost self).

(** [HTTPServer.connection_lost]. *)
Definition connection_lost (self : HTTPServer) : HTTPServer :=
  mk_server (transport self) (cancel (h_timeout self))
            (tasks self) (log self) (composed self) (invoked self)
            (lost self).

(** What the [for ... else] loop of [_call_handler] leaves behind: the
    response, the caught [exc], and the handler calls it made. *)
Record routed : Type := mk_routed {
  r_response : HTTPResponse;
  r_exc : option pyexc;
  r_calls : list (HTTPHandler * kwargs)
}.

(** The [try] statement run for a matching entry: call the handler and
    store its result; [except Exception] turns a fault into a 500 and
    keeps it in [exc]; the [break] in [finally] drops an exception the
    [except] clause did not take (one that is not an [Exception]). *)
Definition try_handler (handler : HTTPHandler) (request : HTTPRequest)
    (groupdict : kwargs) (response : HTTPResponse) : routed :=
  let calls := [(handler, groupdict)] in
  match invoke handler request groupdict with
  | Returns (code, body) => mk_routed (mk_response code body) None calls
  | Raises e =>
      if is_Exception e
      then mk_routed
             (mk_response client.INTERNAL_SERVER_ERROR (body response))
             (Some e) calls
      else mk_routed response None calls
  end.

(** The loop over [self._handlers.items()] with its [else] clause. *)
Fixpoint route (items : handlers) (request : HTTPRequest) (path : string)
    (response : HTTPResponse) : routed :=
  match items with
  | [] => mk_routed (mk_response client.NOT_FOUND (body response)) None []
  | (pat, handler) :: rest =>
      match re_match pat path with
      | Some groupdict => try_handler handler request groupdict response
      | None => route rest request path response
      end
  end.

(** The route table's contract in the words of the specification:
    "the first pattern whose match rule succeeds wins; its named captures
    are returned alongside the handler", [None] standing for NoMatch. *)
Fixpoint spec_match (items : handlers) (path : string)
    : option (HTTPHandler * kwargs) :=
  match items with
  | [] => None
  | (pat, handler) :: rest =>
      match re_match pat path with
      | Some groupdict => Some (handler, groupdict)
      | None => spec_match rest path
      end
  end.

(** No entry of the table matches the path. *)
Definition no_match (items : handlers) (path : string) : Prop :=
  Forall (fun entry => re_match (fst entry) path = None) items.

(** The tail of [_call_handler]: write, print, and the traceback. *)
Definition respond (self : HTTPServer) (request : HTTPRequest)
    (response : HTTPResponse) (exc : option pyexc) : HTTPServer :=
  mk_server (transport_write (transport self) (compose response))
            (h_timeout self) (tasks self)
            (log self
             ++ [AccessLine (method request) (path request) (code response)]
             ++ match exc with Some e => [Traceback e] | None => [] end)
            (composed self ++ [response]) (invoked self) (lost self).

(** [HTTPServer._call_handler]: the connection afterwards and the
    exception that leaves the coroutine, if any. *)
Definition _call_handler (cls : HTTPServer_class) (self : HTTPServer)
    (request : HTTPRequest) : HTTPServer * option pyexc :=
  let path := strip_query (path request) in
  let r := route (_handlers cls) request path HTTPResponse_init in
  let response := r_response r in
  let self :=
    mk_server (transport self) (h_timeout self) (tasks self) (log self)
              (composed self) (invoked self ++ r_calls r) (lost self) in
  if code response =? 200 then
    (respond self request response (r_exc r), None)
  else
    match client.responses (code response) with
    | None => (self, Some (KeyError (format_int (code response))))
    | Some phrase =>
        (respond self request
                 (mk_response (code response)
                              (fallback_body (code response) phrase))
                 (r_exc r),
         None)
    end.

(** [Application]: its own two attributes. *)
Record Application : Type := mk_application {
  app_handlers : handlers;
  app_settings : list (string * string)
}.

(** [Application.__init__]: the new object and the class attributes of
    [HTTPServer] after the two assignments. *)
Definition Application_init (handlers0 : handlers)
    (settings : list (string * string)) (cls : HTTPServer_class)
    : Application * HTTPServer_class :=
  (mk_application handlers0 settings,
   mk_class (TIMEOUT cls) handlers0 (_static_path cls)
            (Environment (settings_get settings "template_path" ""))).

(** *** The event loop *)

(** What the loop does to a connection: deliver data, run a dispatch task
    to its end, run a finished task's done callback, run the timeout
    handle at some time, report the connection lost.  [_call_handler]
    touches the connection only after the handler has returned, so a
    handler that suspends is a task whose [TaskStep] comes later, with
    other events in between.  [PeerClosed] is the loop closing the
    transport on its own (end of file from the peer, a socket error);
    [connection_lost] is called in a later callback. *)
Inductive event : Type :=
| DataReceived (data : string)
| TaskStep (i : nat)
| TaskDone (i : nat)
| TimerFired (at_time : Z)
| ConnectionLost
| PeerClosed.

Definition set_task (self : HTTPServer) (i : nat) (t : task) : HTTPServer :=
  mk_server (transport self) (h_timeout self) (update_nth i t (tasks self))
            (log self) (composed self) (invoked self) (lost self).

(** One callback run by the loop; [None] when the loop cannot make that
    call in this state.  Data is delivered only while the transport is
    open; a timer handle runs once, when due and not cancelled;
    [connection_lost] is called once, after the transport was closed (by
    the protocol or by the loop) in an earlier callback. *)
Definition loop_step (cls : HTTPServer_class) (self : HTTPServer)
    (ev : event) : option HTTPServer :=
  match ev with
  | DataReceived data =>
      if closing (transport self) then None
      else Some (data_received self data)
  | TaskStep i =>
      match nth_error (tasks self) i with
      | Some (Pending request) =>
          let '(self', exception) := _call_handler cls self request in
          Some (set_task self' i (Finished exception))
      | _ => None
      end
  | TaskDone i =>
      match nth_error (tasks self) i with
      | Some (Finished _) =>
          Some (_finalize_request (set_task self i Finalized))
      | _ => None
      end
  | TimerFired at_time =>
      let h := h_timeout self in
      if dangling h && (when h <=? at_time) then
        Some (timeout
                (mk_server (transport self)
                           (mk_timer (when h) (cancelled h) true)
                           (tasks self) (log self) (composed self)
                           (invoked self) (lost self)))
      else None
  | ConnectionLost =>
      if closing (transport self) && negb (lost self) then
        Some (connection_lost
                (mk_server (transport self) (h_timeout self) (tasks self)
                           (log self) (composed self) (invoked self) true))
      else None
  | PeerClosed =>
      if closing (transport self) then None
      else
        let t := transport self in
        Some (mk_server (mk_transport true (close_calls t) (written t))
                        (h_timeout self) (tasks self) (log self)
                        (composed self) (invoked self) (lost self))
  end.

Fixpoint loop_run (cls : HTTPServer_class) (self : HTTPServer)
    (evs : list event) : option HTTPServer :=
  match evs with
  | [] => Some self
  | ev :: rest =>
      match loop_step cls self ev with
      | Some self' => loop_run cls self' rest
      | None => None
      end
  end.

(** The number of chunks of data a run of events delivers. *)
Fixpoint chunks (evs : list event) : nat :=
  match evs with
  | [] => O
  | DataReceived _ :: rest => S (chunks rest)
  | _ :: rest => chunks rest
  end.


(** The number of dispatch tasks that have not run yet. *)
Fixpoint pending (ts : list task) : nat :=
  match ts with
  | [] => O
  | Pending _ :: rest => S (pending rest)
  | _ :: rest => pending rest
  end.

(** The timer at the close of the connection: once [connection_lost] has
    run the handle is cancelled, and once the protocol has closed the
    transport itself or [connection_lost] has run the timeout is no
    longer scheduled. *)
Definition safe_timer (self : HTTPServer) : Prop :=
  (lost self = true -> cancelled (h_timeout self) = true)
  /\ (lost self = true \/ (0 < close_calls (transport self))%nat ->
      dangling (h_timeout self) = false).


End Server.

(** ** Regular expressions

    A model of [re.match] for the pattern constructs route tables use:
    literal characters, [\d], [.], concatenation, [|], greedy [*], named
    groups [(?P<name>...)] and the end anchor [\Z].  Patterns are given in
    parsed form.  The matcher backtracks the way [re] does: alternatives
    left to right, [*] taking as many rounds as it can first. *)

Module Regex.

Inductive regex : Type :=
| Empty
| Chr (c : ascii)
| Digit
| AnyChar
| Seq (r1 r2 : regex)
| Alt (r1 r2 : regex)
| Star (r : regex)
| Named (name : string) (r : regex)
| EndZ.

(** [r+] *)
Definition Plus (r : regex) : regex := Seq r (Star r).

(** A literal string. *)
Fixpoint Lit (s : string) : regex :=
  match s with
  | EmptyString => Empty
  | String c rest => Seq (Chr c) (Lit rest)
  end.

Definition is_digit (c : ascii) : bool :=
  let n := nat_of_ascii c in (48 <=? n)%nat && (n <=? 57)%nat.

Definition is_newline (c : ascii) : bool := Ascii.eqb c "010"%char.

(** Group bindings made so far, the latest first. *)
Definition captures : Type := list (string * string).

Fixpoint find (name : string) (c : captures) : option string :=
  match c with
  | [] => None
  | (n, v) :: rest => if String.eqb n name then Some v else find name rest
  end.

(** A continuation: what to do with the rest of the string. *)
Definition cont : Type := string -> captures -> option captures.

(** The rounds of a [*]: try one more round of [step] that consumes
    something and go on from there; failing that, leave the loop.  The
    fuel is the length of the string, one round using up at least one
    character. *)
Fixpoint rounds (step : string -> captures -> cont -> option captures)
    (k : cont) (fuel : nat) (s : string) (c : captures)
    : option captures :=
  match fuel with
  | O => k s c
  | S fuel' =>
      match
        step s c
             (fun s1 c1 =>
                if (String.length s1 <? String.length s)%nat
                then rounds step k fuel' s1 c1
                else None)
      with
      | Some res => Some res
      | None => k s c
      end
  end.

(** [go r s c k]: match [r] at the front of [s], then hand the rest of
    the string to [k]; when [k] fails, try the next way of matching
    [r]. *)
Fixpoint go (r : regex) (s : string) (c : captures) (k : cont) {struct r}
    : option captures :=
  match r with
  | Empty => k s c
  | Chr a =>
      match s with
      | String b s' => if Ascii.eqb a b then k s' c else None
      | EmptyString => None
      end
  | Digit =>
      match s with
      | String b s' => if is_digit b then k s' c else None
      | EmptyString => None
      end
  | AnyChar =>
      match s with
      | String b s' => if is_newline b then None else k s' c
      | EmptyString => None
      end
  | Seq r1 r2 => go r1 s c (fun s1 c1 => go r2 s1 c1 k)
  | Alt r1 r2 =>
      match go r1 s c k with
      | Some res => Some res
      | None => go r2 s c k
      end
  | Star r1 => rounds (go r1) k (String.length s) s c
  | Named name r1 =>
      go r1 s c
         (fun s1 c1 =>
            k s1 ((name,
                   substring 0 (String.length s - String.length s1) s)
                  :: c1))
  | EndZ =>
      match s with
      | EmptyString => k s c
      | String _ _ => None
      end
  end.

(** The names of the pattern's groups, in order. *)
Fixpoint group_names (r : regex) : list string :=
  match r with
  | Seq r1 r2 | Alt r1 r2 => group_names r1 ++ group_names r2
  | Star r1 => group_names r1
  | Named name r1 => name :: group_names r1
  | _ => []
  end.

(** [m.groupdict()] *)
Definition groupdict (r : regex) (c : captures) : kwargs :=
  map (fun name => (name, find name c)) (group_names r).

(** [re.match(r, s)]: the match may end anywhere in [s]. *)
Definition re_match (r : regex) (s : string) : option kwargs :=
  option_map (groupdict r) (go r s [] (fun _ c => Some c)).

(** [re.fullmatch(r, s)]: the match must end where [s] ends. *)
Definition re_fullmatch (r : regex) (s : string) : option kwargs :=
  option_map (groupdict r)
    (go r s [] (fun rest c =>
                  match rest with
                  | EmptyString => Some c
                  | String _ _ => None
                  end)).

(** [matches r s rest]: [r] can match exactly [s] when [rest] follows. *)
Inductive matches : regex -> string -> string -> Prop :=
| M_Empty rest : matches Empty "" rest
| M_Chr a rest : matches (Chr a) (String a "") rest
| M_Digit a rest : is_digit a = true -> matches Digit (String a "") rest
| M_AnyChar a rest :
    is_newline a = false -> matches AnyChar (String a "") rest
| M_Seq r1 r2 s1 s2 rest :
    matches r1 s1 (s2 ++ rest) -> matches r2 s2 rest ->
    matches (Seq r1 r2) (s1 ++ s2) rest
| M_AltL r1 r2 s rest : matches r1 s rest -> matches (Alt r1 r2) s rest
| M_AltR r1 r2 s rest : matches r2 s rest -> matches (Alt r1 r2) s rest
| M_StarStop r rest : matches (Star r) "" rest
| M_StarRound r a s1 s2 rest :
    matches r (String a s1) (s2 ++ rest) -> matches (Star r) s2 rest ->
    matches (Star r) (String a s1 ++ s2) rest
| M_Named name r s rest : matches r s rest -> matches (Named name r) s rest
| M_EndZ : matches EndZ "" "".

(** The property of a matching step that the soundness of the loop
    needs. *)
Definition sound_step (r : regex)
    (step : string -> captures -> cont -> option captures) : Prop :=
  forall s c k res,
    step s c k = Some res ->
    exists s1 rest c', s = s1 ++ rest /\ matches r s1 rest
                       /\ k rest c' = Some res.

(** The property of a matching step that the completeness of the loop
    needs: a continuation that accepts the rest makes the step succeed. *)
Definition complete_step (r : regex)
    (step : string -> captures -> cont -> option captures) : Prop :=
  forall s1 rest,
    matches r s1 rest ->
    forall c (k : cont),
      (forall c', k rest c' <> None) -> step (s1 ++ rest) c k <> None.

End Regex.


(** ** The rest of [HTTPHandler] *)

Definition NotImplementedError : pyexc := mk_exc "NotImplementedError" true "".

Definition AttributeError (msg : string) : pyexc :=
  mk_exc "AttributeError" true msg.

(** [HTTPHandler.handle] of the base class. *)
Definition HTTPHandler_handle (request : HTTPRequest) (kw : kwargs)
    : outcome pyvalue :=
  Raises NotImplementedError.

(** An instance of [HTTPHandler] itself, or of a subclass that does not
    override [handle]; the method is decorated with [asyncio.coroutine]. *)
Definition HTTPHandler_base : HTTPHandler := mk_handler true HTTPHandler_handle.

Section Templates.

Variable pattern : Type.

(** jinja2: [env.get_template(name).render(data)] for an environment that
    loads from [template_path]; either step may raise. *)
Variable jinja_render :
  string -> string -> list (string * pyvalue) -> outcome string.

(** [HTTPHandler.render(self, template_name, **kwargs)].  The class
    attribute [_jinja_env] is the empty string until an [Application]
    is constructed, and a string has no [get_template]. *)
Definition render (cls : HTTPServer_class pattern) (template_name : string)
    (kw : list (string * pyvalue)) : outcome string :=
  match _jinja_env cls with
  | NoEnvironment =>
      Raises (AttributeError "'str' object has no attribute 'get_template'")
  | Environment template_path => jinja_render template_path template_name kw
  end.

End Templates.

(** ** Measures of a connection *)

(** The string contains a question mark. *)
Fixpoint has_query (s : string) : bool :=
  match s with
  | EmptyString => false
  | String c rest => Ascii.eqb c "?"%char || has_query rest
  end.

(** The number of dispatch tasks whose done callback has run. *)
Fixpoint finalized (ts : list task) : nat :=
  match ts with
  | [] => O
  | Finalized :: rest => S (finalized rest)
  | _ :: rest => finalized rest
  end.

(** The status codes of the access lines printed, in order. *)
Fixpoint access_codes (l : list log_entry) : list Z :=
  match l with
  | [] => []
  | AccessLine _ _ status :: rest => status :: access_codes rest
  | Traceback _ :: rest => access_codes rest
  end.

(** The callbacks in which the protocol closes the transport or gives up
    the timer: a done callback, the timeout, [connection_lost]. *)
Definition ends_connection (ev : event) : bool :=
  match ev with
  | TaskDone _ | TimerFired _ | ConnectionLost => true
  | DataReceived _ | TaskStep _ | PeerClosed => false
  end.

(** The transport is closed and the timeout can no longer run. *)
Definition ended (self : HTTPServer) : Prop :=
  closing (transport self) = true /\ dangling (h_timeout self) = false.

(** A response as [_call_handler] lets it out: status 200 with whatever
    body, or another status with the fallback body of that status. *)
Definition ok_or_fallback (r : HTTPResponse) : Prop :=
  code r = 200
  \/ exists phrase,
       client.responses (code r) = Some phrase
       /\ body r = fallback_body (code r) phrase.

(** What holds of a connection accepted at time [now] throughout its
    life. *)
Record consistent (compose : HTTPResponse -> string) (due : Z)
    (self : HTTPServer) : Prop := mk_consistent {
  open_all_written :
    closing (transport self) = false ->
    written (transport self) = map compose (composed self);
  logged_as_built : access_codes (log self) = map code (composed self);
  built_ok_or_fallback : Forall ok_or_fallback (composed self);
  closes_accounted :
    close_calls (transport self)
    = (finalized (tasks self) + if ran (h_timeout self) then 1 else 0)%nat;
  due_time_fixed : when (h_timeout self) = due;
  cancelled_by_end :
    cancelled (h_timeout self) = true
    <-> ((0 < finalized (tasks self))%nat \/ lost self = true);
  closed_when_called :
    (0 < close_calls (transport self))%nat -> closing (transport self) = true
}.

(** The three stages of a connection that has received one request: the
    dispatch not yet run; run, with its response built and its lines
    printed; finalized by its done callback. *)
Definition single_dispatch (request : HTTPRequest) (response : HTTPResponse)
    (lines : list log_entry) (self : HTTPServer) : Prop :=
  (tasks self = [Pending request] /\ composed self = [] /\ log self = [])
  \/ (tasks self = [Finished None] /\ composed self = [response]
      /\ log self = lines)
  \/ (tasks self = [Finalized] /\ composed self = [response]
      /\ log self = lines).

(** ** Sample handlers and tables *)

Module Examples.

Import Regex.

(** [/users/(?P<id>\d+)] *)
Definition users_pattern : regex :=
  Seq (Lit "/users/") (Named "id" (Plus Digit)).

(** [/users/.*] *)
Definition users_any_pattern : regex := Seq (Lit "/users/") (Star AnyChar).

Definition TypeError (msg : string) : pyexc := mk_exc "TypeError" true msg.

Definition SystemExit : pyexc := mk_exc "SystemExit" false "".

(** [def handle(self, request): return "hi"] *)
Definition hello : HTTPHandler :=
  mk_handler false (fun _ _ => Returns (PyStr "hi")).

(** [def handle(self, request, id): return id], as a coroutine or as a
    plain function; a call without [id] is a [TypeError]. *)
Definition show_id (coroutine : bool) : HTTPHandler :=
  mk_handler coroutine
    (fun _ kw =>
       match kw with
       | [(name, Some v)] =>
           if String.eqb name "id" then Returns (PyStr v)
           else Raises (TypeError "handle() got an unexpected keyword argument")
       | _ => Raises (TypeError "handle() missing 1 required positional argument: 'id'")
       end).

(** A handler whose [handle] returns the given value. *)
Definition returning (v : pyvalue) : HTTPHandler :=
  mk_handler true (fun _ _ => Returns v).

(** A handler whose [handle] is a coroutine that first waits for
    something all requests share (a future, a lock) and then returns the
    given value; the dispatches waiting on it are resumed by the loop one
    after the other, before the done callback of any of them. *)
Definition waiting (v : pyvalue) : HTTPHandler :=
  mk_handler true (fun _ _ => Returns v).

(** A handler whose [handle] is a coroutine that waits in the same way
    and then raises the given exception. *)
Definition raising_later (e : pyexc) : HTTPHandler :=
  mk_handler true (fun _ _ => Raises e).

(** A handler whose [handle] raises the given exception. *)
Definition raising (e : pyexc) : HTTPHandler :=
  mk_handler true (fun _ _ => Raises e).

(** A wire format and a request parser to run the server with: the
    status code, a blank, the body; the data being the path of a GET. *)
Definition compose (r : HTTPResponse) : string :=
  format_int (code r) ++ " " ++ body r.

Definition parse (data : string) : option HTTPRequest :=
  Some (mk_request "GET" data).

Definition cls_with (items : handlers regex) : HTTPServer_class regex :=
  snd (Application_init items [] (HTTPServer_class_init regex)).

Definition fresh (items : handlers regex) : HTTPServer :=
  connection_made (cls_with items) 0 new_transport.

Definition GET (p : string) : HTTPRequest := mk_request "GET" p.

(** One dispatch on a fresh connection of a server with the given
    table. *)
Definition dispatch (items : handlers regex) (request : HTTPRequest)
    : HTTPServer * option pyexc :=
  _call_handler re_match compose (cls_with items) (fresh items) request.

(** A run of the loop on a fresh connection of such a server. *)
Definition run (items : handlers regex) (evs : list event)
    : option HTTPServer :=
  loop_run re_match compose parse (cls_with items) (fresh items) evs.

(** Three entries, the last two both matching [/users/42]. *)
Definition users_table : handlers regex :=
  [(Lit "/about", hello); (users_pattern, show_id true);
   (users_any_pattern, hello)].


(** A template engine to run [render] with: the path, a slash, the name. *)
Definition jinja (template_path template_name : string)
    (data : list (string * pyvalue)) : outcome string :=
  Returns (template_path ++ "/" ++ template_name).

End Examples.

(** * Properties *)

Local Open Scope list_scope.

(** ** The invocation adapter *)

Lemma HTTPHandler_call_none (h : HTTPHandler) request kw :
  (if is_coroutine h then handle h request kw else handle h request [])
    = Returns PyNone ->
  HTTPHandler_call h request kw = Returns (200, "").
Proof. unfold HTTPHandler_call; intros ->; reflexivity. Qed.

Lemma HTTPHandler_call_text (h : HTTPHandler) request kw t :
  (if is_coroutine h then handle h request kw else handle h request [])
    = Returns (PyStr t) ->
  HTTPHandler_call h request kw = Returns (200, t).
Proof.
  unfold HTTPHandler_call; intros ->; cbn.
  destruct (String.eqb_spec t "") as [-> | _]; reflexivity.
Qed.


(** Outside the three accepted kinds, the adapter raises exactly when the
    value is truthy. *)
Lemma HTTPHandler_call_other (h : HTTPHandler) request kw v :
  (if is_coroutine h then handle h request kw else handle h request [])
    = Returns v ->
  v <> PyNone -> (forall t, v <> PyStr t) -> (forall c, v <> PyHTTPError c) ->
  HTTPHandler_call h request kw =
    if truthy v
    then Raises (RainfallException
                   ("handle() result must be HTTPError or unicode, found "
                    ++ type_name v)%string)
    else Returns (200, "").
Proof.
  unfold HTTPHandler_call; intros -> Hn Hs He.
  destruct v; try reflexivity.
  - exfalso; eapply Hs; reflexivity.
  - exfalso; eapply He; reflexivity.
Qed.

(** C2 (the code at the failing inputs): a handler whose [handle] returns
    the integer 0, the empty list or [False] -- values that are neither
    nothing, nor text, nor an error value -- gets (200, "") from the
    adapter instead of the contract-violation fault; the truthy integer 1
    is rejected. *)
Theorem C2_falsy_results_pass_unchecked :
  forall (coroutine : bool) request kw,
    HTTPHandler_call (mk_handler coroutine (fun _ _ => Returns (PyInt 0)))
                     request kw = Returns (200, "")
    /\ HTTPHandler_call (mk_handler coroutine (fun _ _ => Returns (PyList [])))
                        request kw = Returns (200, "")
    /\ HTTPHandler_call
         (mk_handler coroutine (fun _ _ => Returns (PyBool false)))
         request kw = Returns (200, "")
    /\ HTTPHandler_call (mk_handler coroutine (fun _ _ => Returns (PyInt 1)))
                        request kw
       = Raises (RainfallException
                   "handle() result must be HTTPError or unicode, found <class 'int'>").
Proof. intros [] request kw; repeat split; reflexivity. Qed.

(** A plain [handle] is called with the request alone, whatever the
    captures. *)
Lemma HTTPHandler_call_plain f request kw :
  HTTPHandler_call (mk_handler false f) request kw
  = HTTPHandler_call (mk_handler false f) request [].
Proof. reflexivity. Qed.

(** A coroutine [handle] is called with the captures. *)
Lemma HTTPHandler_call_coroutine f request kw v :
  f request kw = Returns (PyStr v) ->
  HTTPHandler_call (mk_handler true f) request kw = Returns (200, v).
Proof. intros H; apply HTTPHandler_call_text; exact H. Qed.

(** C3 (the code at the failing input): with the table
    [/users/(?P<id>\d+)] and the path [/users/42], a coroutine [handle]
    receives [id = "42"] and answers (200, "42"); the same [handle] written
    as a plain function is called without the capture, fails with a
    [TypeError], and the connection answers 500. *)
Theorem C3_plain_handler_loses_captures :
  Regex.re_match Examples.users_pattern "/users/42" = Some [("id", Some "42")]
  /\ composed (fst (Examples.dispatch
                      [(Examples.users_pattern, Examples.show_id true)]
                      (Examples.GET "/users/42")))
     = [mk_response 200 "42"]
  /\ composed (fst (Examples.dispatch
                      [(Examples.users_pattern, Examples.show_id false)]
                      (Examples.GET "/users/42")))
     = [mk_response 500 "<h1>500 Internal Server Error</h1>"]
  /\ log (fst (Examples.dispatch
                 [(Examples.users_pattern, Examples.show_id false)]
                 (Examples.GET "/users/42")))
     = [AccessLine "GET" "/users/42" 500;
        Traceback (Examples.TypeError
                     "handle() missing 1 required positional argument: 'id'")]
  /\ HTTPHandler_call (Examples.show_id false) (Examples.GET "/users/42")
                      [("id", Some "42")]
     = Raises (Examples.TypeError
                 "handle() missing 1 required positional argument: 'id'").
Proof. repeat split; reflexivity. Qed.

(** ** Routing *)

Section Dispatch.

Variable pattern : Type.
Variable re_match : pattern -> string -> option kwargs.
Variable compose : HTTPResponse -> string.
Variable parse : string -> option HTTPRequest.

Lemma route_skip (pre rest : handlers pattern) request path response :
  no_match re_match pre path ->
  route re_match (pre ++ rest) request path response
  = route re_match rest request path response.
Proof.
  induction 1 as [| [pat h] pre Hpat _ IH]; cbn in *.
  - reflexivity.
  - rewrite Hpat. exact IH.
Qed.

Lemma route_no_match (items : handlers pattern) request path response :
  no_match re_match items path ->
  route re_match items request path response
  = mk_routed (mk_response 404 (body response)) None [].
Proof.
  intros H. rewrite <- (app_nil_r items) at 1. rewrite route_skip by exact H.
  reflexivity.
Qed.

Lemma try_handler_calls h request kw response :
  r_calls (try_handler h request kw response) = [(h, kw)].
Proof.
  unfold try_handler.
  destruct (invoke h request kw) as [[c b] | e]; cbn.
  - reflexivity.
  - destruct (is_Exception e); reflexivity.
Qed.

Lemma route_first (pre : handlers pattern) pat h post request path response kw :
  no_match re_match pre path -> re_match pat path = Some kw ->
  route re_match (pre ++ (pat, h) :: post) request path response
  = try_handler h request kw response.
Proof.
  intros Hpre Hpat. rewrite route_skip by exact Hpre.
  cbn. rewrite Hpat. reflexivity.
Qed.

(** The loop computes the specification's [match] and then runs the
    [try] statement on what it found. *)
Lemma route_refines_spec_match (items : handlers pattern) request path response :
  route re_match items request path response
  = match spec_match re_match items path with
    | Some (h, kw) => try_handler h request kw response
    | None => mk_routed (mk_response 404 (body response)) None []
    end.
Proof.
  induction items as [| [pat h] rest IH]; cbn.
  - reflexivity.
  - destruct (re_match pat path); [reflexivity | exact IH].
Qed.

Lemma spec_match_first (pre : handlers pattern) pat h post path kw :
  no_match re_match pre path -> re_match pat path = Some kw ->
  spec_match re_match (pre ++ (pat, h) :: post) path = Some (h, kw).
Proof.
  induction 1 as [| [p0 h0] pre Hp0 _ IH]; cbn in *; intros Hpat.
  - rewrite Hpat. reflexivity.
  - rewrite Hp0. apply IH. exact Hpat.
Qed.

(** C1: when [(pat, h)] is the first entry of the table whose pattern
    matches the path, with captures [kw], then the specification's
    [match] returns [h] with [kw]; the dispatch calls [h] with [kw] and
    makes no other handler call; and it behaves as if the table were the
    one entry [(pat, h)], whatever entries come after it. *)
Theorem C1_first_match_wins :
  forall (cls : HTTPServer_class pattern) self request pre pat h post kw,
    _handlers cls = pre ++ (pat, h) :: post ->
    no_match re_match pre (strip_query (path request)) ->
    re_match pat (strip_query (path request)) = Some kw ->
    spec_match re_match (_handlers cls) (strip_query (path request))
      = Some (h, kw)
    /\ invoked (fst (_call_handler re_match compose cls self request))
       = invoked self ++ [(h, kw)]
    /\ _call_handler re_match compose cls self request
       = _call_handler re_match compose
           (mk_class (TIMEOUT cls) [(pat, h)] (_static_path cls)
                     (_jinja_env cls))
           self request.
Proof.
  intros cls self request pre pat h post kw Htab Hpre Hpat.
  split; [| split].
  - rewrite Htab. apply spec_match_first; assumption.
  - unfold _call_handler. rewrite Htab.
    rewrite route_first with (kw := kw) by assumption.
    destruct (code _ =? 200); [| destruct (client.responses _)];
      cbn; rewrite try_handler_calls; reflexivity.
  - unfold _call_handler. rewrite Htab.
    rewrite route_first with (kw := kw) by assumption.
    cbn [_handlers route]. rewrite Hpat. reflexivity.
Qed.

(** What [_call_handler] does once the loop has left a response whose
    code is not 200 and has a reason phrase. *)
Lemma call_handler_fallback (cls : HTTPServer_class pattern) self request
      c phrase :
  code (r_response (route re_match (_handlers cls) request
                          (strip_query (path request)) HTTPResponse_init))
    = c ->
  c <> 200 -> client.responses c = Some phrase ->
  _call_handler re_match compose cls self request
  = (respond compose
       (mk_server (transport self) (h_timeout self) (tasks self) (log self)
          (composed self)
          (invoked self
           ++ r_calls (route re_match (_handlers cls) request
                             (strip_query (path request))
                             HTTPResponse_init))
          (lost self))
       request (mk_response c (fallback_body c phrase))
       (r_exc (route re_match (_handlers cls) request
                     (strip_query (path request)) HTTPResponse_init)),
     None).
Proof.
  intros Hc Hne Hphrase. unfold _call_handler.
  rewrite Hc. destruct (Z.eqb_spec c 200) as [-> | _]; [congruence |].
  rewrite Hphrase. reflexivity.
Qed.

(** C8: when no entry of the table matches the path (the empty table
    included), the dispatch calls no handler and builds the response
    (404, "<h1>404 Not Found</h1>"); that response is what is written to
    an open transport, and the access line carries 404. *)
Theorem C8_unmatched_path_is_404 :
  forall (cls : HTTPServer_class pattern) self request,
    no_match re_match (_handlers cls) (strip_query (path request)) ->
    let out := _call_handler re_match compose cls self request in
    let response := mk_response 404 "<h1>404 Not Found</h1>" in
    snd out = None
    /\ invoked (fst out) = invoked self
    /\ composed (fst out) = composed self ++ [response]
    /\ transport (fst out)
       = transport_write (transport self) (compose response)
    /\ (closing (transport self) = false ->
        written (transport (fst out))
        = written (transport self) ++ [compose response])
    /\ log (fst out)
       = log self ++ [AccessLine (method request) (path request) 404].
Proof.
  intros cls self request Hno out response.
  assert (Hr : route re_match (_handlers cls) request
                 (strip_query (path request)) HTTPResponse_init
               = mk_routed (mk_response 404 "") None [])
    by (apply route_no_match; exact Hno).
  assert (Hout : out = _call_handler re_match compose cls self request)
    by reflexivity.
  rewrite call_handler_fallback with (c := 404) (phrase := "Not Found"%string)
    in Hout; [| rewrite Hr; reflexivity | discriminate | reflexivity].
  rewrite Hr in Hout. rewrite Hout. cbn.
  repeat split; try reflexivity.
  - apply app_nil_r.
  - intros Hopen. unfold transport_write. rewrite Hopen. reflexivity.
Qed.

(** C5 (as amended): when the status left by the dispatch is a code C
    other than 200 that has a standard reason phrase, the dispatch
    finishes without an exception and the one response it builds and
    writes is (C, "<h1>C phrase</h1>") -- whatever body the handler
    produced. *)
Theorem C5_error_status_gets_fallback_body :
  forall (cls : HTTPServer_class pattern) self request c phrase,
    code (r_response (route re_match (_handlers cls) request
                            (strip_query (path request))
                            HTTPResponse_init)) = c ->
    c <> 200 -> client.responses c = Some phrase ->
    let out := _call_handler re_match compose cls self request in
    let response :=
      mk_response c ("<h1>" ++ format_int c ++ " " ++ phrase ++ "</h1>") in
    snd out = None
    /\ composed (fst out) = composed self ++ [response]
    /\ transport (fst out)
       = transport_write (transport self) (compose response)
    /\ (closing (transport self) = false ->
        written (transport (fst out))
        = written (transport self) ++ [compose response]).
Proof.
  intros cls self request c phrase Hc Hne Hphrase out response.
  unfold out.
  rewrite (call_handler_fallback cls self request Hc Hne Hphrase). cbn.
  repeat split; try reflexivity.
  intros Hopen. unfold transport_write. rewrite Hopen. reflexivity.
Qed.


(** ** The connection's life under the loop *)

(** What a dispatch task leaves untouched, and how much it adds. *)
Lemma call_handler_frame (cls : HTTPServer_class pattern) self request :
  let out := _call_handler re_match compose cls self request in
  tasks (fst out) = tasks self
  /\ h_timeout (fst out) = h_timeout self
  /\ lost (fst out) = lost self
  /\ closing (transport (fst out)) = closing (transport self)
  /\ close_calls (transport (fst out)) = close_calls (transport self)
  /\ (List.length (composed self) <= List.length (composed (fst out))
      <= S (List.length (composed self)))%nat
  /\ (List.length (written (transport (fst out))) + List.length (composed self)
      <= List.length (written (transport self)) + List.length (composed (fst out)))%nat.
Proof.
  unfold _call_handler.
  set (r := route re_match (_handlers cls) request
                  (strip_query (path request)) HTTPResponse_init).
  assert (Hw : forall (t : Transport) data,
             closing (transport_write t data) = closing t
             /\ close_calls (transport_write t data) = close_calls t
             /\ (List.length (written (transport_write t data))
                 <= S (List.length (written t)))%nat).
  { intros t data. unfold transport_write.
    destruct (closing t) eqn:E; cbn; rewrite ?E, ?List.length_app; cbn;
      repeat split; lia. }
  destruct (code (r_response r) =? 200);
    [| destruct (client.responses (code (r_response r)))]; cbn;
    rewrite ?List.length_app; cbn;
    try (match goal with
         | |- context [transport_write ?t ?d] =>
             destruct (Hw t d) as (H1 & H2 & H3)
         end);
    repeat split; try assumption; try lia.
Qed.

Lemma pending_app ts t :
  pending (ts ++ [t])
  = (pending ts + match t with Pending _ => 1 | _ => 0 end)%nat.
Proof.
  induction ts as [| [r | x |] ts IH]; cbn.
  - destruct t; reflexivity.
  - rewrite IH. reflexivity.
  - exact IH.
  - exact IH.
Qed.

Lemma pending_finish ts i request x :
  nth_error ts i = Some (Pending request) ->
  S (pending (update_nth i (Finished x) ts)) = pending ts.
Proof.
  revert i. induction ts as [| t ts IH]; intros [| i] H; cbn in *;
    try discriminate.
  - injection H as ->. reflexivity.
  - destruct t; cbn; rewrite <- (IH i H); reflexivity.
Qed.

Lemma pending_finalize ts i x :
  nth_error ts i = Some (Finished x) ->
  pending (update_nth i Finalized ts) = pending ts.
Proof.
  revert i. induction ts as [| t ts IH]; intros [| i] H; cbn in *;
    try discriminate.
  - injection H as ->. reflexivity.
  - destruct t; cbn; rewrite (IH i H); reflexivity.
Qed.

(** The measures one callback of the loop preserves. *)
Lemma loop_step_bounds (cls : HTTPServer_class pattern) self ev self' :
  loop_step re_match compose parse cls self ev = Some self' ->
  (List.length (written (transport self')) + List.length (composed self)
   <= List.length (written (transport self)) + List.length (composed self'))%nat
  /\ (List.length (composed self') + pending (tasks self')
      <= List.length (composed self) + pending (tasks self) + chunks [ev])%nat
  /\ (safe_timer self -> safe_timer self').
Proof.
  unfold safe_timer.
  destruct ev as [data | i | i | at_time | |]; cbn [loop_step chunks].
  - destruct (closing (transport self)) eqn:Hc; [discriminate |].
    intros [= <-]. unfold data_received.
    destruct (parse data); cbn; rewrite ?pending_app;
      repeat split; try lia; tauto.
  - destruct (nth_error (tasks self) i) as [[request | x |] |] eqn:Hi;
      try discriminate.
    pose proof (call_handler_frame cls self request) as F. cbn zeta in F.
    destruct (_call_handler re_match compose cls self request)
      as [s1 exception].
    cbn [fst] in F. destruct F as (Ft & Fh & Fl & _ & Fc & Fn & Fw).
    intros [= <-]. cbn. rewrite Ft, Fh, Fl, Fc.
    pose proof (pending_finish (tasks self) i exception Hi).
    repeat split; try lia; tauto.
  - destruct (nth_error (tasks self) i) as [[request | x |] |] eqn:Hi;
      try discriminate.
    intros [= <-]. cbn. rewrite (pending_finalize _ _ Hi).
    repeat split; lia.
  - destruct (dangling (h_timeout self) && (when (h_timeout self) <=? at_time));
      [| discriminate].
    intros [= <-]. cbn. repeat split; try lia; try tauto.
    intros _. unfold dangling. cbn. apply andb_false_r.
  - destruct (closing (transport self) && negb (lost self));
      [| discriminate].
    intros [= <-]. cbn. repeat split; lia.
  - destruct (closing (transport self)); [discriminate |].
    intros [= <-]. cbn. repeat split; try lia; tauto.
Qed.

Lemma chunks_cons ev evs : chunks (ev :: evs) = (chunks [ev] + chunks evs)%nat.
Proof. destruct ev; reflexivity. Qed.

Lemma loop_run_bounds (cls : HTTPServer_class pattern) evs :
  forall self self',
    loop_run re_match compose parse cls self evs = Some self' ->
    (List.length (written (transport self')) + List.length (composed self)
     <= List.length (written (transport self)) + List.length (composed self'))%nat
    /\ (List.length (composed self') + pending (tasks self')
        <= List.length (composed self) + pending (tasks self) + chunks evs)%nat
    /\ (safe_timer self -> safe_timer self').
Proof.
  induction evs as [| ev evs IH]; intros self self'.
  - intros [= <-]. cbn [chunks]. split; [lia |]. split; [lia | auto].
  - cbn [loop_run].
    destruct (loop_step re_match compose parse cls self ev) as [s1 |] eqn:Hs;
      [| discriminate].
    intros Hrun. rewrite chunks_cons.
    destruct (loop_step_bounds _ _ _ Hs) as (A1 & A2 & A3).
    destruct (IH _ _ Hrun) as (B1 & B2 & B3).
    split; [lia |]. split; [lia | auto].
Qed.

(** C7 (as amended): over any run of the loop on a connection, the
    responses built number at most the chunks of data delivered (each
    chunk starts its own dispatch, each dispatch builds at most one
    response), and the responses written number at most those built; so a
    connection that is delivered at most one chunk has at most one
    response built and written.  And the timer is not left dangling:
    once [connection_lost] has run the handle is cancelled, and from the
    moment the protocol closes the transport itself, or [connection_lost]
    runs, the timeout is no longer scheduled. *)
Theorem C7_one_response_per_chunk :
  forall (cls : HTTPServer_class pattern) now evs self',
    loop_run re_match compose parse cls
             (connection_made cls now new_transport) evs = Some self' ->
    (List.length (written (transport self')) <= List.length (composed self'))%nat
    /\ (List.length (composed self') <= chunks evs)%nat
    /\ ((chunks evs <= 1)%nat ->
        (List.length (composed self') <= 1)%nat
        /\ (List.length (written (transport self')) <= 1)%nat)
    /\ (lost self' = true -> cancelled (h_timeout self') = true)
    /\ (lost self' = true \/ (0 < close_calls (transport self'))%nat ->
        dangling (h_timeout self') = false).
Proof.
  intros cls now evs self' Hrun.
  destruct (loop_run_bounds _ _ _ Hrun) as (B1 & B2 & B3). cbn in B1, B2.
  assert (Hsafe : safe_timer self').
  { apply B3. unfold safe_timer. cbn. split; [discriminate |].
    intros [H | H]; [discriminate | lia]. }
  destruct Hsafe as [S1 S2].
  repeat split; try lia; assumption.
Qed.






(** The dispatch when the first matching handler's invocation raises an
    [Exception]. *)
Lemma route_fault (cls : HTTPServer_class pattern) request
      pre pat h post kw e :
  _handlers cls = pre ++ (pat, h) :: post ->
  no_match re_match pre (strip_query (path request)) ->
  re_match pat (strip_query (path request)) = Some kw ->
  invoke h request kw = Raises e ->
  is_Exception e = true ->
  route re_match (_handlers cls) request (strip_query (path request))
        HTTPResponse_init
  = mk_routed (mk_response 500 "") (Some e) [(h, kw)].
Proof.
  intros Htab Hpre Hpat Hcall Hexc. rewrite Htab.
  rewrite route_first with (kw := kw) by assumption.
  unfold try_handler. rewrite Hcall, Hexc. reflexivity.
Qed.

(** C10: after two [Application] constructions the class attributes of
    [HTTPServer] hold the second one's handlers and template
    environment; every dispatch then routes against the second table and
    is the same as if the first [Application] had never been built; and
    this holds for a connection that was accepted, and received its
    data, between the two constructions. *)
Theorem C10_last_application_owns_the_table :
  forall (cls : HTTPServer_class pattern) h1 s1 h2 s2,
    let cls1 := snd (Application_init h1 s1 cls) in
    let cls2 := snd (Application_init h2 s2 cls1) in
    app_handlers (fst (Application_init h1 s1 cls)) = h1
    /\ _handlers cls1 = h1
    /\ _handlers cls2 = h2
    /\ _jinja_env cls2 = Environment (settings_get s2 "template_path" "")
    /\ (forall self request,
           _call_handler re_match compose cls2 self request
           = _call_handler re_match compose
               (snd (Application_init h2 s2 cls)) self request)
    /\ (forall self request,
           invoked (fst (_call_handler re_match compose cls2 self request))
           = invoked self
             ++ r_calls (route re_match h2 request
                               (strip_query (path request))
                               HTTPResponse_init))
    /\ (forall now transport data,
           loop_step re_match compose parse cls2
             (data_received parse (connection_made cls1 now transport) data)
             (TaskStep 0)
           = loop_step re_match compose parse
               (snd (Application_init h2 s2 cls))
               (data_received parse
                  (connection_made (snd (Application_init h2 s2 cls))
                                   now transport) data)
               (TaskStep 0)).
Proof.
  intros cls h1 s1 h2 s2 cls1 cls2.
  repeat split; try reflexivity.
  intros self request. unfold _call_handler. cbn [_handlers cls2 cls1 Application_init snd].
  destruct (code _ =? 200); [| destruct (client.responses _)]; reflexivity.
Qed.

End Dispatch.

(** ** What [re.match] accepts *)

Module RegexFacts.

Import Regex.
Local Open Scope string_scope.

Lemma append_assoc (s1 s2 s3 : string) : (s1 ++ s2) ++ s3 = s1 ++ (s2 ++ s3).
Proof. induction s1 as [| a s1 IH]; cbn; [| rewrite IH]; reflexivity. Qed.

Lemma append_empty_r (s : string) : s ++ "" = s.
Proof. induction s as [| a s IH]; cbn; [| rewrite IH]; reflexivity. Qed.

Lemma length_append (s1 s2 : string) :
  String.length (s1 ++ s2) = (String.length s1 + String.length s2)%nat.
Proof. induction s1 as [| a s1 IH]; cbn; [| rewrite IH]; reflexivity. Qed.

(** A split of [s] whose rest is shorter than [s] has a first part that
    is not empty. *)
Lemma shorter_rest (s1 rest : string) :
  (String.length rest < String.length (s1 ++ rest))%nat ->
  exists a s1', s1 = String a s1'.
Proof.
  destruct s1 as [| a s1']; cbn; intros H; [lia | eauto].
Qed.

Lemma rounds_sound r step k :
  sound_step r step ->
  forall fuel s c res,
    rounds step k fuel s c = Some res ->
    exists s1 rest c', s = s1 ++ rest /\ matches (Star r) s1 rest
                       /\ k rest c' = Some res.
Proof.
  intros Hstep. induction fuel as [| fuel IH]; intros s c res; cbn [rounds].
  - intros Hk. exists "", s, c. repeat split; [constructor | exact Hk].
  - destruct (step s c _) as [res' |] eqn:Hs.
    + intros [= ->]. apply Hstep in Hs as (s1 & rest1 & c1 & -> & Hm & Hk).
      revert Hk.
      destruct (String.length rest1 <? String.length (s1 ++ rest1))%nat
        eqn:Hlt; [intros Hk | discriminate].
      apply Nat.ltb_lt in Hlt.
      destruct (shorter_rest _ _ Hlt) as (a & s1' & ->).
      apply IH in Hk as (s2 & rest & c2 & -> & Hm2 & Hk2).
      exists (String a s1' ++ s2), rest, c2. repeat split.
      * symmetry. apply append_assoc.
      * apply M_StarRound; assumption.
      * exact Hk2.
    + intros Hk. exists "", s, c. repeat split; [constructor | exact Hk].
Qed.

(** Every success of the matcher is a match of some first part of the
    string, with the continuation run on the rest. *)
Lemma go_sound r : sound_step r (go r).
Proof.
  unfold sound_step.
  induction r as [| a | | | r1 IH1 r2 IH2 | r1 IH1 r2 IH2 | r1 IH1
                  | name r1 IH1 |]; intros s c k res; cbn.
  - intros Hk. exists "", s, c. repeat split; [constructor | exact Hk].
  - destruct s as [| b s']; [discriminate |].
    destruct (Ascii.eqb_spec a b) as [<- | _]; [| discriminate].
    intros Hk. exists (String a ""), s', c.
    repeat split; [constructor | exact Hk].
  - destruct s as [| b s']; [discriminate |].
    destruct (is_digit b) eqn:Hd; [| discriminate].
    intros Hk. exists (String b ""), s', c.
    repeat split; [constructor; exact Hd | exact Hk].
  - destruct s as [| b s']; [discriminate |].
    destruct (is_newline b) eqn:Hn; [discriminate |].
    intros Hk. exists (String b ""), s', c.
    repeat split; [constructor; exact Hn | exact Hk].
  - intros H. apply IH1 in H as (s1 & rest1 & c1 & -> & Hm1 & H).
    apply IH2 in H as (s2 & rest & c2 & -> & Hm2 & Hk).
    exists (s1 ++ s2), rest, c2. repeat split.
    + symmetry. apply append_assoc.
    + constructor; assumption.
    + exact Hk.
  - destruct (go r1 s c k) as [res' |] eqn:H1.
    + intros [= ->]. apply IH1 in H1 as (s1 & rest & c1 & -> & Hm & Hk).
      exists s1, rest, c1. repeat split; [apply M_AltL; exact Hm | exact Hk].
    + intros H2. apply IH2 in H2 as (s1 & rest & c1 & -> & Hm & Hk).
      exists s1, rest, c1. repeat split; [apply M_AltR; exact Hm | exact Hk].
  - apply rounds_sound. exact IH1.
  - intros H. apply IH1 in H as (s1 & rest & c1 & -> & Hm & Hk).
    exists s1, rest, ((name, substring 0 (String.length (s1 ++ rest)
                                         - String.length rest)
                               (s1 ++ rest)) :: c1).
    repeat split; [constructor; exact Hm | exact Hk].
  - destruct s as [| b s']; [| discriminate].
    intros Hk. exists "", "", c. repeat split; [constructor | exact Hk].
Qed.

Lemma rounds_complete r step (k : cont) :
  complete_step r step ->
  forall s rest,
    matches (Star r) s rest ->
    (forall c', k rest c' <> None) ->
    forall fuel c,
      (String.length (s ++ rest) <= fuel)%nat ->
      rounds step k fuel (s ++ rest) c <> None.
Proof.
  intros Hstep s rest Hm Hk.
  remember (Star r) as sr eqn:Hsr.
  induction Hm as [ | | | | | | | r0 rest
                    | r0 a s1 s2 rest Hm1 _ Hm2 IH2 | |];
    try discriminate; injection Hsr as ->; intros fuel c Hfuel.
  - cbn. destruct fuel as [| fuel]; cbn; [apply Hk |].
    destruct (step rest c _); [discriminate | apply Hk].
  - destruct fuel as [| fuel]; [cbn in Hfuel; lia |].
    cbn [rounds].
    match goal with
    | |- match step ?s ?c ?k' with _ => _ end <> None =>
        assert (Hs : step s c k' <> None)
    end.
    { rewrite append_assoc. apply Hstep; [exact Hm1 |].
      intros c'. rewrite <- append_assoc.
      assert (Hlt : (String.length (s2 ++ rest)
                     <? String.length ((String a s1 ++ s2) ++ rest))%nat
                    = true).
      { apply Nat.ltb_lt. rewrite !length_append. cbn. lia. }
      rewrite Hlt. apply IH2; [reflexivity | exact Hk |].
      rewrite !length_append in *. cbn in Hfuel. lia. }
    destruct (step _ c _); [discriminate | contradiction].
Qed.

(** Whenever some first part of the string matches and the continuation
    accepts the rest, the matcher succeeds. *)
Lemma go_complete r : complete_step r (go r).
Proof.
  unfold complete_step.
  induction r as [| a | | | r1 IH1 r2 IH2 | r1 IH1 r2 IH2 | r1 IH1
                  | name r1 IH1 |]; intros s1 rest Hm c k Hk.
  - inversion Hm; subst. cbn. apply Hk.
  - inversion Hm; subst. cbn. rewrite Ascii.eqb_refl. apply Hk.
  - inversion Hm as [| | b ? Hd | | | | | | | |]; subst. cbn.
    rewrite Hd. apply Hk.
  - inversion Hm as [| | | b ? Hn | | | | | | |]; subst. cbn.
    rewrite Hn. apply Hk.
  - inversion Hm as [| | | | ? ? t1 t2 ? Hm1 Hm2 | | | | | |]; subst.
    cbn. rewrite append_assoc. apply IH1; [exact Hm1 |].
    intros c'. apply IH2; [exact Hm2 | exact Hk].
  - cbn. inversion Hm; subst.
    + pose proof (IH1 _ _ H3 c k Hk) as H.
      destruct (go r1 (s1 ++ rest) c k); [discriminate | contradiction].
    + pose proof (IH2 _ _ H3 c k Hk) as H.
      destruct (go r1 (s1 ++ rest) c k); [discriminate | exact H].
  - cbn. apply rounds_complete with (r := r1); auto.
  - inversion Hm; subst. cbn. apply IH1; [assumption |].
    intros c'. apply Hk.
  - inversion Hm; subst. cbn. apply Hk.
Qed.

End RegexFacts.

(** C4 (as amended): a pattern matches a path under [re.match] exactly
    when it matches some first part of the path; the rest of the path may
    be anything that the pattern's own end anchors allow.  Only
    [re.fullmatch], which the dispatch does not use, asks for the match to
    cover the whole path. *)
Theorem C4_match_is_anchored_at_the_start_only :
  forall (r : Regex.regex) (path : string),
    (Regex.re_match r path <> None
     <-> exists s rest, path = (s ++ rest)%string /\ Regex.matches r s rest)
    /\ (Regex.re_fullmatch r path <> None <-> Regex.matches r path "").
Proof.
  intros r path. split; split.
  - unfold Regex.re_match.
    destruct (Regex.go r path [] _) as [res |] eqn:Hgo; [| cbn; congruence].
    intros _. apply RegexFacts.go_sound in Hgo as (s & rest & _ & -> & Hm & _).
    eauto.
  - intros (s & rest & -> & Hm). unfold Regex.re_match.
    pose proof (RegexFacts.go_complete Hm [] (fun _ c => Some c)) as H.
    destruct (Regex.go r (s ++ rest) [] _); [discriminate |].
    exfalso. apply H; [discriminate | reflexivity].
  - unfold Regex.re_fullmatch.
    destruct (Regex.go r path [] _) as [res |] eqn:Hgo; [| cbn; congruence].
    intros _. apply RegexFacts.go_sound in Hgo as (s & rest & c & -> & Hm & Hk).
    destruct rest; [| discriminate].
    rewrite RegexFacts.append_empty_r. exact Hm.
  - intros Hm. unfold Regex.re_fullmatch.
    pose proof (RegexFacts.go_complete Hm []
                  (fun rest c => match rest with
                                 | EmptyString => Some c
                                 | String _ _ => None
                                 end)) as H.
    rewrite RegexFacts.append_empty_r in H.
    destruct (Regex.go r path [] _); [discriminate |].
    exfalso. apply H; [discriminate | reflexivity].
Qed.

(** ** The theorems at sample inputs *)

Module Samples.

Import Examples.
Import Regex.

Lemma C1_first_match_wins_witness :
  no_match re_match [(Lit "/about", hello)] "/users/42"
  /\ re_match users_pattern "/users/42" = Some [("id", Some "42")]
  /\ re_match users_any_pattern "/users/42" = Some []
  /\ invoked (fst (dispatch users_table (GET "/users/42?page=2")))
     = [(show_id true, [("id", Some "42")])].
Proof.
  split; [repeat constructor |].
  split; [reflexivity |]. split; [reflexivity |].
  apply (@C1_first_match_wins _ re_match compose (cls_with users_table)
           (fresh users_table) (GET "/users/42?page=2")
           [(Lit "/about", hello)] users_pattern (show_id true)
           [(users_any_pattern, hello)] [("id", Some "42")]).
  - reflexivity.
  - repeat constructor.
  - reflexivity.
Defined.

Lemma C4_match_is_anchored_at_the_start_only_witness :
  matches (Lit "/") "/" "anything"
  /\ re_match (Lit "/") "/anything" <> None.
Proof.
  assert (Hm : matches (Lit "/") "/" "anything").
  { change (matches (Seq (Chr "/") Empty) ("/" ++ "") "anything").
    constructor; constructor. }
  split; [exact Hm |].
  apply (proj1 (C4_match_is_anchored_at_the_start_only
                  (Lit "/") "/anything")).
  exists "/"%string, "anything"%string. split; [reflexivity | exact Hm].
Defined.

(** The table [("/", hello)] and the path [/anything]: the pattern does
    not match the whole path, yet the entry matches and its handler
    answers. *)
Lemma C4_counterexample_prefix_of_path_matches :
  re_match (Lit "/") "/anything" = Some []
  /\ re_fullmatch (Lit "/") "/anything" = None
  /\ composed (fst (dispatch [(Lit "/", hello)] (GET "/anything")))
     = [mk_response 200 "hi"].
Proof. repeat split. Qed.

Lemma C5_error_status_gets_fallback_body_witness :
  403 <> 200
  /\ client.responses 403 = Some "Forbidden"%string
  /\ snd (dispatch [(Lit "/", returning (PyHTTPError 403))] (GET "/"))
     = None
  /\ composed
       (fst (dispatch [(Lit "/", returning (PyHTTPError 403))] (GET "/")))
     = [mk_response 403 "<h1>403 Forbidden</h1>"]
  /\ written
       (transport
          (fst (dispatch [(Lit "/", returning (PyHTTPError 403))]
                         (GET "/"))))
     = ["403 <h1>403 Forbidden</h1>"%string].
Proof.
  split; [lia |]. split; [reflexivity |].
  destruct (@C5_error_status_gets_fallback_body _ re_match compose
              (cls_with [(Lit "/", returning (PyHTTPError 403))])
              (fresh [(Lit "/", returning (PyHTTPError 403))])
              (GET "/") 403 "Forbidden")
    as (H1 & H2 & _ & H4); [reflexivity | lia | reflexivity |].
  split; [exact H1 |]. split; [exact H2 |]. apply H4. reflexivity.
Defined.

(** A handler returning an error value of code 600, which has no reason
    phrase: the lookup raises [KeyError], the dispatch task dies with
    it, and no response is built, written or logged. *)
Lemma C5_counterexample_code_without_reason_phrase :
  HTTPHandler_call (returning (PyHTTPError 600)) (GET "/") []
    = Returns (600, ""%string)
  /\ snd (dispatch [(Lit "/", returning (PyHTTPError 600))] (GET "/"))
     = Some (KeyError "600")
  /\ composed
       (fst (dispatch [(Lit "/", returning (PyHTTPError 600))] (GET "/")))
     = []
  /\ written
       (transport
          (fst (dispatch [(Lit "/", returning (PyHTTPError 600))]
                         (GET "/"))))
     = []
  /\ log (fst (dispatch [(Lit "/", returning (PyHTTPError 600))] (GET "/")))
     = [].
Proof. repeat split. Qed.

Lemma C7_one_response_per_chunk_witness :
  exists self',
    run [] [DataReceived "/a"; TaskStep 0; TaskDone 0; ConnectionLost]
    = Some self'
    /\ (List.length (written (transport self')) <= 1)%nat
    /\ (List.length (composed self') <= 1)%nat
    /\ dangling (h_timeout self') = false.
Proof.
  eexists. split; [reflexivity |].
  destruct (@C7_one_response_per_chunk _ re_match compose parse
              (cls_with []) 0
              [DataReceived "/a"; TaskStep 0; TaskDone 0; ConnectionLost]
              _ eq_refl) as (_ & _ & H3 & _ & H5).
  destruct (H3 (le_n 1)) as (Hc & Hw).
  split; [exact Hw |]. split; [exact Hc |]. apply H5. left. reflexivity.
Defined.

(** Two requests on one connection to a handler that waits: the second
    chunk arrives while the first dispatch is waiting, both dispatches are
    resumed before either done callback runs, and two responses are built
    and both written to the open transport.  And a peer that closes the
    connection without sending anything: the transport is closed while the
    timer is still scheduled and not cancelled, and the timeout can still
    run before [connection_lost] does. *)
Lemma C7_counterexample_two_responses_and_late_timer :
  (option_map (fun self => composed self)
     (run [(Lit "/", waiting (PyStr "hi"))]
          [DataReceived "/"; DataReceived "/"; TaskStep 0; TaskStep 1])
   = Some [mk_response 200 "hi"; mk_response 200 "hi"]
   /\ option_map (fun self => written (transport self))
        (run [(Lit "/", waiting (PyStr "hi"))]
             [DataReceived "/"; DataReceived "/"; TaskStep 0; TaskStep 1])
      = Some ["200 hi"%string; "200 hi"%string]
   /\ option_map (fun self => closing (transport self))
        (run [(Lit "/", waiting (PyStr "hi"))]
             [DataReceived "/"; DataReceived "/"; TaskStep 0; TaskStep 1])
      = Some false)
  /\ option_map
       (fun self => (closing (transport self), cancelled (h_timeout self),
                     dangling (h_timeout self)))
       (run [] [PeerClosed])
     = Some (true, false, true)
  /\ option_map
       (fun self => (closing (transport self), cancelled (h_timeout self),
                     ran (h_timeout self)))
       (run [] [PeerClosed; TimerFired 5])
     = Some (true, false, true).
Proof. repeat split. Qed.

Lemma C8_unmatched_path_is_404_witness :
  no_match re_match [] "/anything"
  /\ composed (fst (dispatch [] (GET "/anything")))
     = [mk_response 404 "<h1>404 Not Found</h1>"]
  /\ written (transport (fst (dispatch [] (GET "/anything"))))
     = ["404 <h1>404 Not Found</h1>"%string].
Proof.
  split; [constructor |].
  destruct (@C8_unmatched_path_is_404 _ re_match compose (cls_with [])
              (fresh []) (GET "/anything"))
    as (_ & _ & H3 & _ & H5 & _); [constructor |].
  split; [exact H3 | apply H5; reflexivity].
Defined.


End Samples.

(** * Further properties *)

(** ** The query string *)

Lemma strip_query_no_query (p : string) :
  has_query p = false -> strip_query p = p.
Proof.
  induction p as [| c p IH]; cbn; [reflexivity |].
  destruct (Ascii.eqb c "?"); cbn; [discriminate |].
  intros H. rewrite (IH H). reflexivity.
Qed.

(** X1: for a path [p] without a question mark, the text routed on for
    [p?q] is [p], whatever [q] is (further question marks included). *)
Theorem strip_query_cuts_at_first_mark :
  forall p q : string,
    has_query p = false ->
    strip_query (p ++ String "?" q) = p.
Proof.
  induction p as [| c p IH]; cbn; intros q H; [reflexivity |].
  destruct (Ascii.eqb c "?"); cbn in *; [discriminate |].
  rewrite (IH q H). reflexivity.
Qed.

(** X2: what [strip_query] returns has no question mark, is a prefix of
    its argument, and is left alone by a second [strip_query]. *)
Theorem strip_query_result :
  forall s : string,
    has_query (strip_query s) = false
    /\ prefix (strip_query s) s = true
    /\ strip_query (strip_query s) = strip_query s.
Proof.
  intros s.
  assert (H : has_query (strip_query s) = false).
  { induction s as [| c s IH]; cbn; [reflexivity |].
    destruct (Ascii.eqb c "?") eqn:E; cbn; [reflexivity |].
    rewrite E. exact IH. }
  split; [exact H |]. split.
  - induction s as [| c s IH]; cbn; [reflexivity |].
    destruct (Ascii.eqb c "?") eqn:E; cbn; [reflexivity |].
    destruct (ascii_dec c c) as [_ | N]; [| contradiction].
    apply IH. cbn in H. rewrite E in H. cbn in H. rewrite E in H. exact H.
  - apply strip_query_no_query. exact H.
Qed.

(** ** The adapter *)

(** X3: a pair returned by the adapter never has both a status other than
    200 and a body: the status comes from an error value, the body from a
    text, and a result is one or the other. *)
Theorem adapter_code_or_body :
  forall (h : HTTPHandler) request kw c b,
    HTTPHandler_call h request kw = Returns (c, b) ->
    c = 200 \/ b = ""%string.
Proof.
  intros h request kw c b. unfold HTTPHandler_call.
  destruct (if is_coroutine h then handle h request kw
            else handle h request []) as [v | e]; [| discriminate].
  destruct (truthy v); [| intros [= <- <-]; auto].
  destruct v; try discriminate; intros [= <- <-]; auto.
Qed.

(** An exception that leaves the adapter was raised by [handle], or is the
    [RainfallException] for a result of the wrong type. *)
Lemma adapter_raises (h : HTTPHandler) request kw e :
  HTTPHandler_call h request kw = Raises e ->
  (if is_coroutine h then handle h request kw else handle h request [])
    = Raises e
  \/ exc_class e = "RainfallException"%string.
Proof.
  unfold HTTPHandler_call.
  destruct (if is_coroutine h then handle h request kw
            else handle h request []) as [v | e']; [| intros [= ->]; auto].
  destruct (truthy v); [| discriminate].
  destruct v; try discriminate; intros [= <-]; auto.
Qed.

(** ** One dispatch *)

Section MoreDispatch.

Variable pattern : Type.
Variable re_match : pattern -> string -> option kwargs.
Variable compose : HTTPResponse -> string.
Variable parse : string -> option HTTPRequest.

(** X4: whatever the table, one dispatch makes at most one handler call,
    and makes none exactly when no entry matches. *)
Theorem route_calls_at_most_one_handler :
  forall (items : handlers pattern) request path response,
    (List.length (r_calls (route re_match items request path response)) <= 1)%nat
    /\ (r_calls (route re_match items request path response) = []
        <-> no_match re_match items path).
Proof.
  intros items request path response.
  induction items as [| [pat h] rest [IHl IHn]]; cbn.
  - split; [lia |]. split; [constructor | reflexivity].
  - destruct (re_match pat path) as [kw |] eqn:E.
    + rewrite try_handler_calls. cbn. split; [lia |]. split; [discriminate |].
      intros H. inversion H as [| ? ? Hpat _]. cbn in Hpat. congruence.
    + split; [exact IHl |]. split.
      * intros H. constructor; [exact E | apply IHn; exact H].
      * intros H. apply IHn. inversion H; assumption.
Qed.

(** The two ways [_call_handler] can end: with a response written, printed
    and recorded, or with the [KeyError] of the reason phrase lookup and
    nothing done. *)
Lemma call_handler_cases (cls : HTTPServer_class pattern) self request :
  let r := route re_match (_handlers cls) request
                 (strip_query (path request)) HTTPResponse_init in
  let self1 :=
    mk_server (transport self) (h_timeout self) (tasks self) (log self)
              (composed self) (invoked self ++ r_calls r) (lost self) in
  (exists response,
      ok_or_fallback response
      /\ code response = code (r_response r)
      /\ (code response = 200 -> body response = body (r_response r))
      /\ _call_handler re_match compose cls self request
         = (respond compose self1 request response (r_exc r), None))
  \/ (code (r_response r) <> 200
      /\ client.responses (code (r_response r)) = None
      /\ _call_handler re_match compose cls self request
         = (self1, Some (KeyError (format_int (code (r_response r)))))).
Proof.
  intros r self1. unfold _call_handler. fold r. fold self1.
  destruct (Z.eqb_spec (code (r_response r)) 200) as [E | N].
  - left. exists (r_response r). repeat split; auto. left. exact E.
  - destruct (client.responses (code (r_response r))) as [phrase |] eqn:P.
    + left. exists (mk_response (code (r_response r))
                                (fallback_body (code (r_response r)) phrase)).
      cbn. repeat split; try contradiction. right. exists phrase. auto.
    + right. auto.
Qed.

(** The dispatch when the status to send has no reason phrase. *)
Lemma call_handler_unknown_code (cls : HTTPServer_class pattern) self request
      c :
  code (r_response (route re_match (_handlers cls) request
                          (strip_query (path request)) HTTPResponse_init))
    = c ->
  c <> 200 -> client.responses c = None ->
  _call_handler re_match compose cls self request
  = (mk_server (transport self) (h_timeout self) (tasks self) (log self)
       (composed self)
       (invoked self
        ++ r_calls (route re_match (_handlers cls) request
                          (strip_query (path request)) HTTPResponse_init))
       (lost self),
     Some (KeyError (format_int c))).
Proof.
  intros Hc Hne Hp. unfold _call_handler. rewrite Hc.
  destruct (Z.eqb_spec c 200) as [-> | _]; [congruence |].
  rewrite Hp. reflexivity.
Qed.

(** X5: when the status to send is not 200 and has no entry in
    [http.client.responses], the reason phrase lookup raises [KeyError]
    and that exception leaves [_call_handler]: the handler has been
    called, but nothing is written to the transport and no response is
    built. *)
Theorem unknown_status_raises_KeyError :
  forall (cls : HTTPServer_class pattern) self request c,
    code (r_response (route re_match (_handlers cls) request
                            (strip_query (path request))
                            HTTPResponse_init)) = c ->
    c <> 200 ->
    client.responses c = None ->
    snd (_call_handler re_match compose cls self request)
    = Some (KeyError (format_int c))
    /\ transport (fst (_call_handler re_match compose cls self request))
       = transport self
    /\ composed (fst (_call_handler re_match compose cls self request))
       = composed self
    /\ invoked (fst (_call_handler re_match compose cls self request))
       = invoked self
         ++ r_calls (route re_match (_handlers cls) request
                           (strip_query (path request)) HTTPResponse_init).
Proof.
  intros cls self request c Hc Hne Hp.
  rewrite (call_handler_unknown_code cls self request Hc Hne Hp).
  repeat split.
Qed.

Lemma call_handler_on_closed_transport (cls : HTTPServer_class pattern)
      self request :
  closing (transport self) = true ->
  transport (fst (_call_handler re_match compose cls self request))
  = transport self.
Proof.
  intros Hclosed.
  destruct (call_handler_cases cls self request)
    as [(response & _ & _ & _ & Hout) | (Hc & Hp & Hout)];
    rewrite Hout; cbn; [| reflexivity].
  unfold transport_write. rewrite Hclosed. reflexivity.
Qed.

Lemma access_codes_app l1 l2 :
  access_codes (l1 ++ l2) = access_codes l1 ++ access_codes l2.
Proof.
  induction l1 as [| [m p c | e] l1 IH]; cbn; rewrite ?IH; reflexivity.
Qed.

(** X6: on a transport that was closed before anything was written to
    it (by the timeout, or because the peer went away) the dispatch writes
    nothing; when it ends without an exception it has all the same built
    one response and printed its access line. *)
Theorem closed_transport_drops_the_response :
  forall (cls : HTTPServer_class pattern) self request,
    closing (transport self) = true ->
    written (transport self) = [] ->
    written
      (transport (fst (_call_handler re_match compose cls self request)))
    = []
    /\ (snd (_call_handler re_match compose cls self request) = None ->
        exists response,
          composed (fst (_call_handler re_match compose cls self request))
          = composed self ++ [response]
          /\ access_codes
               (log (fst (_call_handler re_match compose cls self request)))
             = access_codes (log self) ++ [code response]).
Proof.
  intros cls self request Hclosed Hnone.
  split.
  - rewrite call_handler_on_closed_transport by exact Hclosed. exact Hnone.
  - destruct (call_handler_cases cls self request)
      as [(response & _ & _ & _ & Hout) | (Hc & Hp & Hout)];
      rewrite Hout; cbn; [| discriminate].
    intros _. exists response. split; [reflexivity |].
    rewrite !access_codes_app. cbn.
    destruct (r_exc _); cbn; rewrite ?app_nil_r; reflexivity.
Qed.

(** X7: when the first matching handler's [handle] returns the text [t]
    (no capture being named [self] or [request], so that the call goes
    through), the dispatch ends without an exception, and builds and
    writes the response (200, t), printing an access line with status
    200. *)
Theorem text_result_is_served :
  forall (cls : HTTPServer_class pattern) self request
         pre pat h post kw t,
    _handlers cls = pre ++ (pat, h) :: post ->
    no_match re_match pre (strip_query (path request)) ->
    re_match pat (strip_query (path request)) = Some kw ->
    first_clash kw = None ->
    (if is_coroutine h then handle h request kw else handle h request [])
      = Returns (PyStr t) ->
    let out := _call_handler re_match compose cls self request in
    snd out = None
    /\ composed (fst out) = composed self ++ [mk_response 200 t]
    /\ transport (fst out)
       = transport_write (transport self) (compose (mk_response 200 t))
    /\ log (fst out)
       = log self ++ [AccessLine (method request) (path request) 200].
Proof.
  intros cls self request pre pat h post kw t Htab Hpre Hpat Hclash Hres out.
  unfold out, _call_handler. rewrite Htab.
  rewrite route_first with (kw := kw) by assumption.
  unfold try_handler, invoke.
  rewrite Hclash, (HTTPHandler_call_text _ _ _ Hres). cbn.
  repeat split.
Qed.

(** What calling the base handler raises: the [TypeError] of the call
    when a capture is named [self] or [request], else the
    [NotImplementedError] of the base [handle]. *)
Lemma invoke_base request kw :
  invoke HTTPHandler_base request kw
  = Raises match first_clash kw with
           | Some name => TypeError_multiple_values name
           | None => NotImplementedError
           end.
Proof. unfold invoke. destruct (first_clash kw); reflexivity. Qed.

(** X8: a handler that does not override [handle] answers every request
    routed to it with 500.  The traceback printed after the access line
    is that of the [NotImplementedError] the base method raises, unless a
    capture is named [self] or [request]: then the call itself fails and
    the traceback is that of its [TypeError]. *)
Theorem base_handler_answers_500 :
  forall (cls : HTTPServer_class pattern) self request pre pat post kw,
    _handlers cls = pre ++ (pat, HTTPHandler_base) :: post ->
    no_match re_match pre (strip_query (path request)) ->
    re_match pat (strip_query (path request)) = Some kw ->
    let out := _call_handler re_match compose cls self request in
    snd out = None
    /\ composed (fst out)
       = composed self
         ++ [mk_response 500 "<h1>500 Internal Server Error</h1>"]
    /\ log (fst out)
       = log self
         ++ [AccessLine (method request) (path request) 500;
             Traceback match first_clash kw with
                       | Some name => TypeError_multiple_values name
                       | None => NotImplementedError
                       end].
Proof.
  intros cls self request pre pat post kw Htab Hpre Hpat out.
  assert (Hr : route re_match (_handlers cls) request
                     (strip_query (path request)) HTTPResponse_init
               = mk_routed (mk_response 500 "")
                   (Some match first_clash kw with
                         | Some name => TypeError_multiple_values name
                         | None => NotImplementedError
                         end)
                   [(HTTPHandler_base, kw)]).
  { apply (@route_fault _ re_match cls request pre pat HTTPHandler_base
             post kw _ Htab Hpre Hpat (invoke_base request kw)).
    destruct (first_clash kw); reflexivity. }
  unfold out.
  rewrite call_handler_fallback
    with (c := 500) (phrase := "Internal Server Error"%string);
    [| rewrite Hr; reflexivity | discriminate | reflexivity].
  rewrite Hr. cbn. repeat split.
Qed.

(** ** Invariants of a connection *)

Lemma finalized_app ts t :
  finalized (ts ++ [t])
  = (finalized ts + match t with Finalized => 1 | _ => 0 end)%nat.
Proof.
  induction ts as [| [r | x |] ts IH]; cbn; rewrite ?IH;
    try reflexivity; destruct t; reflexivity.
Qed.

Lemma finalized_finish ts i request x :
  nth_error ts i = Some (Pending request) ->
  finalized (update_nth i (Finished x) ts) = finalized ts.
Proof.
  revert i. induction ts as [| t ts IH]; intros [| i] H; cbn in *;
    try discriminate.
  - injection H as ->. reflexivity.
  - destruct t; cbn; rewrite (IH i H); reflexivity.
Qed.

Lemma finalized_finalize ts i x :
  nth_error ts i = Some (Finished x) ->
  finalized (update_nth i Finalized ts) = S (finalized ts).
Proof.
  revert i. induction ts as [| t ts IH]; intros [| i] H; cbn in *;
    try discriminate.
  - injection H as ->. reflexivity.
  - destruct t; cbn; rewrite (IH i H); reflexivity.
Qed.

Lemma fresh_consistent (cls : HTTPServer_class pattern) now :
  consistent compose (now + TIMEOUT cls)
             (connection_made cls now new_transport).
Proof.
  constructor; cbn; try reflexivity.
  - constructor.
  - split; [discriminate | intros [H | H]; [lia | discriminate]].
  - lia.
Qed.

Lemma loop_step_consistent (cls : HTTPServer_class pattern) due self ev self' :
  consistent compose due self ->
  loop_step re_match compose parse cls self ev = Some self' ->
  consistent compose due self'.
Proof.
  intros [Hw Hl Hb Hc Hd Hx Hk].
  destruct ev as [data | i | i | at_time | |]; cbn [loop_step].
  - destruct (closing (transport self)) eqn:Hopen; [discriminate |].
    specialize (Hw eq_refl).
    intros [= <-]. unfold data_received.
    destruct (parse data); constructor; cbn;
      rewrite ?finalized_app, ?Nat.add_0_r; auto;
      rewrite Hopen; exact Hk.
  - destruct (nth_error (tasks self) i) as [[request | x |] |] eqn:Hi;
      try discriminate.
    assert (Hcl : forall d,
               closing (transport_write (transport self) d)
               = closing (transport self)
               /\ close_calls (transport_write (transport self) d)
                  = close_calls (transport self)).
    { intros d. unfold transport_write.
      destruct (closing (transport self)) eqn:E; cbn; rewrite ?E; auto. }
    destruct (call_handler_cases cls self request)
      as [(response & Hok & _ & _ & Hout) | (_ & _ & Hout)];
      rewrite Hout; intros [= <-];
      constructor; cbn; rewrite ?(finalized_finish _ _ _ Hi); auto.
    + unfold transport_write.
      destruct (closing (transport self)) eqn:Hopen; cbn;
        [rewrite Hopen; discriminate |].
      intros _. rewrite map_app, (Hw eq_refl). reflexivity.
    + rewrite !access_codes_app, map_app, Hl. cbn.
      destruct (r_exc _); cbn; rewrite ?app_nil_r; reflexivity.
    + apply Forall_app. split; [exact Hb | constructor; [exact Hok |]].
      constructor.
    + destruct (Hcl (compose response)) as [_ ->]. exact Hc.
    + destruct (Hcl (compose response)) as [-> ->]. exact Hk.
  - destruct (nth_error (tasks self) i) as [[request | x |] |] eqn:Hi;
      try discriminate.
    intros [= <-].
    constructor; cbn; rewrite ?(finalized_finalize _ _ Hi); auto;
      try discriminate; try lia.
  - unfold dangling.
    destruct (cancelled (h_timeout self)) eqn:Hcanc; [discriminate |].
    destruct (ran (h_timeout self)) eqn:Hran; [discriminate |].
    cbn [negb andb].
    destruct (when (h_timeout self) <=? at_time); [| discriminate].
    intros [= <-].
    constructor; cbn; auto; try discriminate; try lia.
  - destruct (closing (transport self)) eqn:Hopen; [| discriminate].
    destruct (lost self) eqn:Hlost; [discriminate |].
    intros [= <-].
    constructor; cbn; auto; try (intros; congruence);
      try (split; [intros _; right; reflexivity | reflexivity]).
  - destruct (closing (transport self)) eqn:Hopen; [discriminate |].
    intros [= <-].
    constructor; cbn; auto; try discriminate.
Qed.

Lemma loop_run_consistent (cls : HTTPServer_class pattern) due evs :
  forall self self',
    consistent compose due self ->
    loop_run re_match compose parse cls self evs = Some self' ->
    consistent compose due self'.
Proof.
  induction evs as [| ev evs IH]; intros self self' Hc.
  - intros [= <-]. exact Hc.
  - cbn [loop_run].
    destruct (loop_step re_match compose parse cls self ev) as [s1 |] eqn:Hs;
      [| discriminate].
    apply IH. exact (@loop_step_consistent cls due self ev s1 Hc Hs).
Qed.

(** X9: as long as the transport of a connection is open, what has been
    written to it is exactly the responses built so far, composed, in the
    order they were built. *)
Theorem open_transport_has_every_response :
  forall (cls : HTTPServer_class pattern) now evs self',
    loop_run re_match compose parse cls
             (connection_made cls now new_transport) evs = Some self' ->
    closing (transport self') = false ->
    written (transport self') = map compose (composed self').
Proof.
  intros cls now evs self' Hrun.
  apply (open_all_written
           (@loop_run_consistent cls _ evs _ self'
              (fresh_consistent cls now) Hrun)).
Qed.

(** X10: throughout the life of a connection the access lines printed
    carry, in order, the status codes of the responses built: one line per
    response, with the status that response has. *)
Theorem access_lines_mirror_responses :
  forall (cls : HTTPServer_class pattern) now evs self',
    loop_run re_match compose parse cls
             (connection_made cls now new_transport) evs = Some self' ->
    access_codes (log self') = map code (composed self').
Proof.
  intros cls now evs self' Hrun.
  apply (logged_as_built
           (@loop_run_consistent cls _ evs _ self'
              (fresh_consistent cls now) Hrun)).
Qed.

(** X11: every response a connection ever builds has status 200, or has
    a status with a standard reason phrase and exactly the fallback body
    of that status; a handler's text never goes out under another
    status. *)
Theorem responses_are_ok_or_fallback :
  forall (cls : HTTPServer_class pattern) now evs self',
    loop_run re_match compose parse cls
             (connection_made cls now new_transport) evs = Some self' ->
    Forall ok_or_fallback (composed self').
Proof.
  intros cls now evs self' Hrun.
  apply (built_ok_or_fallback
           (@loop_run_consistent cls _ evs _ self'
              (fresh_consistent cls now) Hrun)).
Qed.

(** X12: the protocol calls [close] on its transport once for every
    dispatch whose done callback has run, and once more if the timeout has
    run; it makes no other [close] call. *)
Theorem close_calls_are_accounted_for :
  forall (cls : HTTPServer_class pattern) now evs self',
    loop_run re_match compose parse cls
             (connection_made cls now new_transport) evs = Some self' ->
    close_calls (transport self')
    = (finalized (tasks self')
       + if ran (h_timeout self') then 1 else 0)%nat.
Proof.
  intros cls now evs self' Hrun.
  apply (closes_accounted
           (@loop_run_consistent cls _ evs _ self'
              (fresh_consistent cls now) Hrun)).
Qed.

(** X13: the timeout of a connection stays due [TIMEOUT] after the
    connection was made -- receiving data never moves it -- and it is
    cancelled exactly when a done callback or [connection_lost] has
    run. *)
Theorem timer_is_set_once_and_cancelled_at_the_end :
  forall (cls : HTTPServer_class pattern) now evs self',
    loop_run re_match compose parse cls
             (connection_made cls now new_transport) evs = Some self' ->
    when (h_timeout self') = now + TIMEOUT cls
    /\ (cancelled (h_timeout self') = true
        <-> ((0 < finalized (tasks self'))%nat \/ lost self' = true)).
Proof.
  intros cls now evs self' Hrun.
  pose proof (@loop_run_consistent cls _ evs _ self'
              (fresh_consistent cls now) Hrun)
    as H.
  split; [apply (due_time_fixed H) | apply (cancelled_by_end H)].
Qed.

(** ** After the end of a connection *)

Lemma loop_step_ended (cls : HTTPServer_class pattern) self ev self' :
  loop_step re_match compose parse cls self ev = Some self' ->
  ends_connection ev = true \/ ended self ->
  ended self'.
Proof.
  unfold ended.
  destruct ev as [data | i | i | at_time | |];
    cbn [loop_step ends_connection].
  - destruct (closing (transport self)) eqn:Hopen; [discriminate |].
    intros _ [H | [H _]]; discriminate.
  - destruct (nth_error (tasks self) i) as [[request | x |] |];
      try discriminate.
    pose proof (call_handler_frame re_match compose cls self request) as F.
    cbn zeta in F.
    destruct (_call_handler re_match compose cls self request) as [s1 x].
    cbn [fst] in F. destruct F as (_ & Fh & _ & Fc & _).
    intros [= <-] [H | H]; [discriminate |]. cbn. rewrite Fh, Fc. exact H.
  - destruct (nth_error (tasks self) i) as [[request | x |] |];
      try discriminate.
    intros [= <-] _. split; reflexivity.
  - destruct (dangling (h_timeout self) && (when (h_timeout self) <=? at_time));
      [| discriminate].
    intros [= <-] _. unfold dangling. cbn. split; [reflexivity |].
    apply andb_false_r.
  - destruct (closing (transport self)) eqn:Hopen; [| discriminate].
    destruct (lost self); [discriminate |].
    intros [= <-] _. cbn. split; [exact Hopen | reflexivity].
  - destruct (closing (transport self)) eqn:Hopen; [discriminate |].
    intros _ [H | [H _]]; discriminate.
Qed.

Lemma loop_run_ended (cls : HTTPServer_class pattern) evs :
  forall self self',
    loop_run re_match compose parse cls self evs = Some self' ->
    existsb ends_connection evs = true \/ ended self ->
    ended self'.
Proof.
  induction evs as [| ev evs IH]; intros self self'.
  - intros [= <-] [H | H]; [discriminate | exact H].
  - cbn [loop_run existsb].
    destruct (loop_step re_match compose parse cls self ev) as [s1 |] eqn:Hs;
      [| discriminate].
    intros Hrun H. apply (IH s1 self' Hrun).
    destruct (ends_connection ev) eqn:He.
    + right. apply (@loop_step_ended cls self ev s1 Hs). left. exact He.
    + destruct H as [H | H]; [left; exact H |].
      right. apply (@loop_step_ended cls self ev s1 Hs). right. exact H.
Qed.

(** X14: once a done callback, the timeout or [connection_lost] has run
    on a connection, the loop can deliver no further data to it and cannot
    run its timeout (again), at any time: the transport is closed and the
    timer is cancelled or spent. *)
Theorem nothing_starts_after_the_end :
  forall (cls : HTTPServer_class pattern) self evs self',
    loop_run re_match compose parse cls self evs = Some self' ->
    existsb ends_connection evs = true ->
    (forall data,
        loop_step re_match compose parse cls self' (DataReceived data) = None)
    /\ (forall at_time,
           loop_step re_match compose parse cls self' (TimerFired at_time)
           = None).
Proof.
  intros cls self evs self' Hrun Hend.
  destruct (@loop_run_ended cls evs self self' Hrun (or_introl Hend))
    as [Hclosed Hspent].
  split; intros; cbn; rewrite ?Hclosed, ?Hspent; reflexivity.
Qed.



(** ** A handler that raises *)

(** The dispatch when the call of the first matching handler raises an
    [Exception], in whatever state the connection is. *)
Lemma call_handler_fault (cls : HTTPServer_class pattern) self request
      pre pat h post kw e :
  _handlers cls = pre ++ (pat, h) :: post ->
  no_match re_match pre (strip_query (path request)) ->
  re_match pat (strip_query (path request)) = Some kw ->
  invoke h request kw = Raises e ->
  is_Exception e = true ->
  _call_handler re_match compose cls self request
  = (respond compose
       (mk_server (transport self) (h_timeout self) (tasks self) (log self)
          (composed self) (invoked self ++ [(h, kw)]) (lost self))
       request (mk_response 500 "<h1>500 Internal Server Error</h1>")
       (Some e),
     None).
Proof.
  intros Htab Hpre Hpat Hcall Hexc.
  pose proof (@route_fault _ re_match cls request pre pat h post kw e
                Htab Hpre Hpat Hcall Hexc) as Hr.
  rewrite call_handler_fallback
    with (c := 500) (phrase := "Internal Server Error"%string);
    [| rewrite Hr; reflexivity | discriminate | reflexivity].
  rewrite Hr. reflexivity.
Qed.

Lemma nth_error_single (A : Type) (x y : A) i :
  nth_error [x] i = Some y -> i = 0%nat /\ x = y.
Proof.
  destruct i as [| [| i]]; cbn; intros H; try discriminate.
  injection H as ->. auto.
Qed.

(** A connection with one request goes through its three stages in
    order, whatever else the loop does in between, as long as no further
    data is delivered. *)
Lemma loop_step_single_dispatch (cls : HTTPServer_class pattern)
      request response lines self ev self' :
  (forall s,
      snd (_call_handler re_match compose cls s request) = None
      /\ composed (fst (_call_handler re_match compose cls s request))
         = composed s ++ [response]
      /\ log (fst (_call_handler re_match compose cls s request))
         = log s ++ lines) ->
  single_dispatch request response lines self ->
  chunks [ev] = 0%nat ->
  loop_step re_match compose parse cls self ev = Some self' ->
  single_dispatch request response lines self'.
Proof.
  intros Hd Hs Hev. unfold single_dispatch in *.
  destruct ev as [data | i | i | at_time | |]; cbn [loop_step];
    try discriminate.
  - destruct (nth_error (tasks self) i) as [[r | x |] |] eqn:Hi;
      try discriminate.
    destruct Hs as [(Ht & Hc & Hl) | [(Ht & _) | (Ht & _)]];
      rewrite Ht in Hi; apply nth_error_single in Hi as [-> Hi];
      try discriminate.
    injection Hi as <-.
    pose proof (call_handler_frame re_match compose cls self request) as F.
    cbn zeta in F. destruct F as (Ft & _).
    destruct (Hd self) as (D1 & D2 & D3).
    destruct (_call_handler re_match compose cls self request) as [s1 x].
    cbn [fst snd] in *. subst x.
    intros [= <-]. right. left. cbn.
    rewrite Ft, Ht, D2, D3, Hc, Hl. auto.
  - destruct (nth_error (tasks self) i) as [[r | x |] |] eqn:Hi;
      try discriminate.
    destruct Hs as [(Ht & _) | [(Ht & Hc & Hl) | (Ht & _)]];
      rewrite Ht in Hi; apply nth_error_single in Hi as [-> Hi];
      try discriminate.
    intros [= <-]. right. right. cbn. rewrite Ht. auto.
  - destruct (dangling (h_timeout self) && (when (h_timeout self) <=? at_time));
      [| discriminate].
    intros [= <-]. exact Hs.
  - destruct (closing (transport self) && negb (lost self));
      [| discriminate].
    intros [= <-]. exact Hs.
  - destruct (closing (transport self)); [discriminate |].
    intros [= <-]. exact Hs.
Qed.

Lemma loop_run_single_dispatch (cls : HTTPServer_class pattern)
      request response lines evs :
  (forall s,
      snd (_call_handler re_match compose cls s request) = None
      /\ composed (fst (_call_handler re_match compose cls s request))
         = composed s ++ [response]
      /\ log (fst (_call_handler re_match compose cls s request))
         = log s ++ lines) ->
  forall self self',
    single_dispatch request response lines self ->
    chunks evs = 0%nat ->
    loop_run re_match compose parse cls self evs = Some self' ->
    single_dispatch request response lines self'.
Proof.
  intros Hd. induction evs as [| ev evs IH]; intros self self' Hs Hc.
  - intros [= <-]. exact Hs.
  - cbn [loop_run].
    destruct (loop_step re_match compose parse cls self ev) as [s1 |] eqn:Hst;
      [| discriminate].
    rewrite chunks_cons in Hc.
    apply IH; [| lia].
    apply (@loop_step_single_dispatch cls request response lines self ev s1
             Hd Hs); [lia | exact Hst].
Qed.

(** C6 (as amended): let the call of the first matching handler raise an
    exception [e] that is an [Exception].  Then, in whatever state the
    connection is, the dispatch ends without an exception of its own,
    builds the response (500, "<h1>500 Internal Server Error</h1>") and
    prints the access line and the traceback of [e].  On a connection
    that receives this request and no other chunk of data, over every
    order in which the loop runs its callbacks: once the done callback
    has run, that response is the one response built, the transport is
    closed and the timer cancelled, and if the timeout callback has not
    run there has been exactly one call of [close].  The order without
    timeout exists: there the response is written, [close] is called
    once, the timer is cancelled and never runs. *)
Theorem C6_fault_is_contained :
  forall (cls : HTTPServer_class pattern) now data request
         pre pat h post kw e,
    parse data = Some request ->
    _handlers cls = pre ++ (pat, h) :: post ->
    no_match re_match pre (strip_query (path request)) ->
    re_match pat (strip_query (path request)) = Some kw ->
    invoke h request kw = Raises e ->
    is_Exception e = true ->
    let response := mk_response 500 "<h1>500 Internal Server Error</h1>" in
    let lines :=
      [AccessLine (method request) (path request) 500; Traceback e] in
    (forall self,
        snd (_call_handler re_match compose cls self request) = None
        /\ composed (fst (_call_handler re_match compose cls self request))
           = composed self ++ [response]
        /\ log (fst (_call_handler re_match compose cls self request))
           = log self ++ lines
        /\ transport (fst (_call_handler re_match compose cls self request))
           = transport_write (transport self) (compose response))
    /\ (forall evs self',
           loop_run re_match compose parse cls
                    (connection_made cls now new_transport)
                    (DataReceived data :: evs) = Some self' ->
           chunks evs = 0%nat ->
           (0 < finalized (tasks self'))%nat ->
           tasks self' = [Finalized]
           /\ composed self' = [response]
           /\ log self' = lines
           /\ closing (transport self') = true
           /\ cancelled (h_timeout self') = true
           /\ (ran (h_timeout self') = false ->
               close_calls (transport self') = 1%nat))
    /\ exists closed,
         loop_run re_match compose parse cls
                  (connection_made cls now new_transport)
                  [DataReceived data; TaskStep 0; TaskDone 0; ConnectionLost]
         = Some closed
         /\ written (transport closed) = [compose response]
         /\ close_calls (transport closed) = 1%nat
         /\ cancelled (h_timeout closed) = true
         /\ ran (h_timeout closed) = false.
Proof.
  intros cls now data request pre pat h post kw e
         Hparse Htab Hpre Hpat Hcall Hexc response lines.
  assert (Hd : forall s,
             _call_handler re_match compose cls s request
             = (respond compose
                  (mk_server (transport s) (h_timeout s) (tasks s) (log s)
                     (composed s) (invoked s ++ [(h, kw)]) (lost s))
                  request response (Some e),
                None))
    by (intros s; apply (@call_handler_fault cls s request pre pat h post
                           kw e Htab Hpre Hpat Hcall Hexc)).
  split; [| split].
  - intros self. rewrite Hd. cbn. repeat split.
  - intros evs self' Hrun Hchunks Hdone.
    pose proof (@loop_run_consistent cls _ (DataReceived data :: evs) _ self'
                  (fresh_consistent cls now) Hrun) as Hcons.
    cbn [loop_run loop_step connection_made transport closing new_transport]
      in Hrun.
    unfold data_received in Hrun. rewrite Hparse in Hrun.
    cbn [tasks transport h_timeout log composed invoked lost app] in Hrun.
    assert (Hstage : single_dispatch request response lines self').
    { refine (@loop_run_single_dispatch cls request response lines evs _
                _ self' _ Hchunks Hrun).
      - intros s. rewrite Hd. cbn. repeat split.
      - left. cbn. auto. }
    destruct Hstage as [(Ht & _) | [(Ht & _) | (Ht & Hc & Hl)]];
      try (rewrite Ht in Hdone; cbn in Hdone; lia).
    pose proof (closes_accounted Hcons) as Hcalls.
    rewrite Ht in Hcalls. cbn [finalized] in Hcalls.
    repeat split; try assumption.
    + apply (closed_when_called Hcons). lia.
    + apply (cancelled_by_end Hcons). left. exact Hdone.
    + intros Hran. rewrite Hran in Hcalls. lia.
  - eexists. split.
    + cbn -[_call_handler data_received].
      unfold data_received. rewrite Hparse.
      cbn -[_call_handler]. rewrite Hd. reflexivity.
    + cbn. repeat split.
Qed.

End MoreDispatch.

(** ** Templates *)

(** X17: [render] raises [AttributeError] as long as no [Application] has
    been constructed; afterwards it renders with the environment of the
    most recently constructed [Application], whose template path is the
    [template_path] setting, or the empty string when the settings are
    empty. *)
Theorem render_uses_the_latest_environment :
  forall (pattern : Type)
         (jinja_render :
            string -> string -> list (string * pyvalue) -> outcome string)
         (cls : HTTPServer_class pattern) h1 s1 h2 s2 name data,
    render jinja_render (HTTPServer_class_init pattern) name data
    = Raises (AttributeError "'str' object has no attribute 'get_template'")
    /\ render jinja_render
              (snd (Application_init h2 s2 (snd (Application_init h1 s1 cls))))
              name data
       = jinja_render (settings_get s2 "template_path" "") name data
    /\ render jinja_render (snd (Application_init h1 [] cls)) name data
       = jinja_render "" name data.
Proof. intros. repeat split. Qed.

(** ** The further properties at sample inputs *)

Module MoreSamples.

Import Examples.
Import Regex.

Lemma strip_query_cuts_at_first_mark_witness :
  has_query "/users/42" = false
  /\ strip_query "/users/42?page=2&next=?" = "/users/42"%string.
Proof.
  split; [reflexivity |].
  exact (strip_query_cuts_at_first_mark "/users/42" "page=2&next=?" eq_refl).
Defined.

Lemma adapter_code_or_body_witness :
  HTTPHandler_call (returning (PyHTTPError 403)) (GET "/") []
    = Returns (403, ""%string)
  /\ (403 = 200 \/ ""%string = ""%string).
Proof.
  split; [reflexivity |].
  exact (@adapter_code_or_body (returning (PyHTTPError 403)) (GET "/") []
           403 "" eq_refl).
Defined.

Lemma unknown_status_raises_KeyError_witness :
  600 <> 200
  /\ client.responses 600 = None
  /\ snd (dispatch [(Lit "/", returning (PyHTTPError 600))] (GET "/"))
     = Some (KeyError "600")
  /\ composed (fst (dispatch [(Lit "/", returning (PyHTTPError 600))]
                             (GET "/")))
     = [].
Proof.
  split; [lia |]. split; [reflexivity |].
  destruct (@unknown_status_raises_KeyError _ re_match compose
              (cls_with [(Lit "/", returning (PyHTTPError 600))])
              (fresh [(Lit "/", returning (PyHTTPError 600))]) (GET "/")
              600 eq_refl)
    as (He & _ & Hc & _); [lia | reflexivity |].
  split; [exact He | exact Hc].
Defined.

Lemma closed_transport_drops_the_response_witness :
  closing (transport (timeout (fresh [(Lit "/", hello)]))) = true
  /\ written (transport (timeout (fresh [(Lit "/", hello)]))) = []
  /\ written
       (transport
          (fst (_call_handler re_match compose (cls_with [(Lit "/", hello)])
                              (timeout (fresh [(Lit "/", hello)]))
                              (GET "/"))))
     = [].
Proof.
  split; [reflexivity |]. split; [reflexivity |].
  destruct (@closed_transport_drops_the_response _ re_match compose
              (cls_with [(Lit "/", hello)])
              (timeout (fresh [(Lit "/", hello)])) (GET "/")
              eq_refl eq_refl)
    as (Ht & _).
  exact Ht.
Defined.

Lemma text_result_is_served_witness :
  re_match (Lit "/") "/" = Some []
  /\ first_clash [] = None
  /\ composed (fst (dispatch [(Lit "/", hello)] (GET "/")))
     = [mk_response 200 "hi"]
  /\ log (fst (dispatch [(Lit "/", hello)] (GET "/")))
     = [AccessLine "GET" "/" 200].
Proof.
  split; [reflexivity |]. split; [reflexivity |].
  destruct (@text_result_is_served _ re_match compose
              (cls_with [(Lit "/", hello)]) (fresh [(Lit "/", hello)])
              (GET "/") [] (Lit "/") hello [] [] "hi"
              eq_refl (Forall_nil _) eq_refl eq_refl eq_refl)
    as (_ & Hc & _ & Hl).
  split; [exact Hc | exact Hl].
Defined.

Lemma base_handler_answers_500_witness :
  re_match users_pattern "/users/7" = Some [("id", Some "7"%string)]
  /\ composed (fst (dispatch [(users_pattern, HTTPHandler_base)]
                             (GET "/users/7")))
     = [mk_response 500 "<h1>500 Internal Server Error</h1>"]
  /\ log (fst (dispatch [(users_pattern, HTTPHandler_base)]
                        (GET "/users/7")))
     = [AccessLine "GET" "/users/7" 500; Traceback NotImplementedError].
Proof.
  split; [reflexivity |].
  destruct (@base_handler_answers_500 _ re_match compose
              (cls_with [(users_pattern, HTTPHandler_base)])
              (fresh [(users_pattern, HTTPHandler_base)])
              (GET "/users/7") [] users_pattern [] [("id", Some "7"%string)]
              eq_refl (Forall_nil _) eq_refl)
    as (_ & Hc & Hl).
  split; [exact Hc | exact Hl].
Defined.

(** The table [/(?P<request>\d+)]: the capture is named like the first
    parameter of [__call__], the call fails, and the answer is 500 with
    the traceback of the call's [TypeError]. *)
Lemma base_handler_call_clash_example :
  re_match (Seq (Lit "/") (Named "request" (Plus Digit))) "/7"
    = Some [("request", Some "7"%string)]
  /\ log (fst (dispatch
                 [(Seq (Lit "/") (Named "request" (Plus Digit)),
                   HTTPHandler_base)]
                 (GET "/7")))
     = [AccessLine "GET" "/7" 500;
        Traceback (TypeError_multiple_values "request")].
Proof. split; reflexivity. Qed.

Lemma open_transport_has_every_response_witness :
  exists self',
    run [(Lit "/", hello)] [DataReceived "/"; DataReceived "/x";
                            TaskStep 1; TaskStep 0] = Some self'
    /\ closing (transport self') = false
    /\ written (transport self') = map compose (composed self').
Proof.
  eexists. split; [reflexivity |]. split; [reflexivity |].
  exact (@open_transport_has_every_response _ re_match compose parse
           (cls_with [(Lit "/", hello)]) 0
           [DataReceived "/"; DataReceived "/x"; TaskStep 1; TaskStep 0]
           _ eq_refl eq_refl).
Defined.

Lemma access_lines_mirror_responses_witness :
  exists self',
    run [(Lit "/", raising (TypeError "boom"))]
        [DataReceived "/"; DataReceived "/x"; TaskStep 0; TaskStep 1]
    = Some self'
    /\ access_codes (log self') = map code (composed self').
Proof.
  eexists. split; [reflexivity |].
  exact (@access_lines_mirror_responses _ re_match compose parse
           (cls_with [(Lit "/", raising (TypeError "boom"))]) 0
           [DataReceived "/"; DataReceived "/x"; TaskStep 0; TaskStep 1]
           _ eq_refl).
Defined.

Lemma responses_are_ok_or_fallback_witness :
  exists self',
    run [(Lit "/", returning (PyHTTPError 403))]
        [DataReceived "/"; DataReceived "/x"; TaskStep 0; TaskStep 1]
    = Some self'
    /\ Forall ok_or_fallback (composed self').
Proof.
  eexists. split; [reflexivity |].
  exact (@responses_are_ok_or_fallback _ re_match compose parse
           (cls_with [(Lit "/", returning (PyHTTPError 403))]) 0
           [DataReceived "/"; DataReceived "/x"; TaskStep 0; TaskStep 1]
           _ eq_refl).
Defined.

Lemma close_calls_are_accounted_for_witness :
  exists self',
    run [(Lit "/", hello)]
        [DataReceived "/"; TimerFired 7; TaskStep 0; TaskDone 0] = Some self'
    /\ close_calls (transport self') = 2%nat
    /\ close_calls (transport self')
       = (finalized (tasks self')
          + if ran (h_timeout self') then 1 else 0)%nat.
Proof.
  eexists. split; [reflexivity |]. split; [reflexivity |].
  exact (@close_calls_are_accounted_for _ re_match compose parse
           (cls_with [(Lit "/", hello)]) 0
           [DataReceived "/"; TimerFired 7; TaskStep 0; TaskDone 0]
           _ eq_refl).
Defined.

Lemma timer_is_set_once_and_cancelled_at_the_end_witness :
  exists self',
    run [(Lit "/", hello)] [DataReceived "/"; TaskStep 0; TaskDone 0]
    = Some self'
    /\ when (h_timeout self') = 0 + TIMEOUT (cls_with [(Lit "/", hello)])
    /\ cancelled (h_timeout self') = true.
Proof.
  eexists. split; [reflexivity |].
  destruct (@timer_is_set_once_and_cancelled_at_the_end _ re_match compose
              parse (cls_with [(Lit "/", hello)]) 0
              [DataReceived "/"; TaskStep 0; TaskDone 0] _ eq_refl)
    as (Hw & Hc).
  split; [exact Hw | reflexivity].
Defined.

Lemma nothing_starts_after_the_end_witness :
  exists self',
    run [(Lit "/", hello)] [DataReceived "/"; TaskStep 0; TaskDone 0]
    = Some self'
    /\ loop_step re_match compose parse (cls_with [(Lit "/", hello)]) self'
                 (DataReceived "/again") = None
    /\ loop_step re_match compose parse (cls_with [(Lit "/", hello)]) self'
                 (TimerFired 5) = None.
Proof.
  eexists. split; [reflexivity |].
  destruct (@nothing_starts_after_the_end _ re_match compose parse
              (cls_with [(Lit "/", hello)]) (fresh [(Lit "/", hello)])
              [DataReceived "/"; TaskStep 0; TaskDone 0] _ eq_refl eq_refl)
    as (Hd & Ht).
  split; [apply Hd | apply Ht].
Defined.



(** A handler that raises, with the peer closing the connection while
    the dispatch is still under way. *)
Lemma C6_fault_is_contained_witness :
  invoke (raising (TypeError "boom")) (GET "/") []
    = Raises (TypeError "boom")
  /\ (exists self',
        run [(Lit "/", raising (TypeError "boom"))]
            [DataReceived "/"; PeerClosed; TaskStep 0; TaskDone 0;
             ConnectionLost] = Some self'
        /\ composed self'
           = [mk_response 500 "<h1>500 Internal Server Error</h1>"]
        /\ log self'
           = [AccessLine "GET" "/" 500; Traceback (TypeError "boom")]
        /\ close_calls (transport self') = 1%nat
        /\ cancelled (h_timeout self') = true)
  /\ (exists closed,
        run [(Lit "/", raising (TypeError "boom"))]
            [DataReceived "/"; TaskStep 0; TaskDone 0; ConnectionLost]
        = Some closed
        /\ written (transport closed)
           = ["500 <h1>500 Internal Server Error</h1>"%string]
        /\ close_calls (transport closed) = 1%nat
        /\ ran (h_timeout closed) = false).
Proof.
  split; [reflexivity |].
  destruct (@C6_fault_is_contained _ re_match compose parse
              (cls_with [(Lit "/", raising (TypeError "boom"))]) 0 "/"
              (GET "/") [] (Lit "/") (raising (TypeError "boom")) [] []
              (TypeError "boom")
              eq_refl eq_refl (Forall_nil _) eq_refl eq_refl eq_refl)
    as (_ & Hall & (closed & Hrun & Hw & Hc & _ & Hr)).
  split.
  - eexists. split; [reflexivity |].
    destruct (Hall [PeerClosed; TaskStep 0; TaskDone 0; ConnectionLost] _
                eq_refl eq_refl) as (_ & H2 & H3 & _ & H5 & H6);
      [cbn; lia |].
    split; [exact H2 |]. split; [exact H3 |].
    split; [apply H6; reflexivity | exact H5].
  - exists closed. repeat split; assumption.
Defined.

(** Three connections on which this fails.  A handler raising
    [SystemExit], which is not an [Exception]: the [except] clause lets it
    pass, the [break] in [finally] drops it, and the answer is 200 with an
    empty body and no traceback.  A handler that raises an [Exception]
    after the timeout has run, or so late that the timeout runs before
    the done callback: [close] is called twice and the timer has run
    rather than been cancelled in time.  Two requests to a handler that
    waits and then raises: two done callbacks, two calls of [close]. *)
Lemma C6_counterexample_exit_timeout_or_second_request :
  (HTTPHandler_call (raising SystemExit) (GET "/") [] = Raises SystemExit
   /\ option_map (fun self => composed self)
        (run [(Lit "/", raising SystemExit)]
             [DataReceived "/"; TaskStep 0; TaskDone 0; ConnectionLost])
      = Some [mk_response 200 ""]
   /\ option_map (fun self => log self)
        (run [(Lit "/", raising SystemExit)]
             [DataReceived "/"; TaskStep 0; TaskDone 0; ConnectionLost])
      = Some [AccessLine "GET" "/" 200])
  /\ (option_map
        (fun self => (close_calls (transport self), ran (h_timeout self),
                      written (transport self)))
        (run [(Lit "/", raising_later (TypeError "boom"))]
             [DataReceived "/"; TimerFired 5; TaskStep 0; TaskDone 0;
              ConnectionLost])
      = Some (2%nat, true, [])
      /\ option_map
           (fun self => (close_calls (transport self), ran (h_timeout self)))
           (run [(Lit "/", raising_later (TypeError "boom"))]
                [DataReceived "/"; TaskStep 0; TimerFired 5; TaskDone 0;
                 ConnectionLost])
         = Some (2%nat, true))
  /\ option_map
       (fun self => (close_calls (transport self), ran (h_timeout self)))
       (run [(Lit "/", raising_later (TypeError "boom"))]
            [DataReceived "/"; DataReceived "/"; TaskStep 0; TaskStep 1;
             TaskDone 0; TaskDone 1; ConnectionLost])
     = Some (2%nat, false).
Proof. repeat split. Qed.

End MoreSamples.
